(** * Compliance toolkit: loader, scanner, auditor and report generator

    A shallow embedding of [compliance_toolkit/utils.py] and the properties
    its specification states about it.

    Python values are dynamically typed, so the embedding carries a small
    universe of values (what [json.load] can produce, floats apart), an
    exception type, and an error monad: every Python operation that can
    raise returns a [res].  The file system is an explicit argument. *)

From Stdlib Require Import List String Ascii ZArith Lia Bool Arith.
From Stdlib Require Import DecimalString.
Import ListNotations.
Set Warnings "-register-all".
Local Open Scope string_scope.
Local Open Scope list_scope.

(** ** Strings *)

(** The line separator of ['\n'.join(lines)]. *)
Definition NL : string := String "010"%char EmptyString.

(** [s.startswith(p)]. *)
Fixpoint startswith (s p : string) {struct p} : bool :=
  match p, s with
  | EmptyString, _ => true
  | String _ _, EmptyString => false
  | String c p', String d s' => Ascii.eqb c d && startswith s' p'
  end.

(** [s.endswith(suf)]: some tail of [s] is [suf]. *)
Fixpoint endswith (s suf : string) : bool :=
  String.eqb s suf ||
  match s with
  | EmptyString => false
  | String _ s' => endswith s' suf
  end.

(** [k in data] on two [str]: [k] occurs in [data] as a contiguous run. *)
Fixpoint contains (data k : string) : bool :=
  startswith data k ||
  match data with
  | EmptyString => false
  | String _ data' => contains data' k
  end.

(** [s.endswith((e1, e2, ...))]: a tuple of suffixes. *)
Definition endswith_any (s : string) (sufs : list string) : bool :=
  existsb (endswith s) sufs.

(** [str(n)] for a length or a count. *)
Definition str_of_nat (n : nat) : string :=
  NilZero.string_of_uint (Nat.to_uint n).

(** [str(n)] for an [int]. *)
Definition str_of_Z (n : Z) : string :=
  NilZero.string_of_int (Z.to_int n).

(** ** Values, exceptions and the error monad *)

(** What [json.load] yields, without floats.  A [dict] keeps its insertion
    order (Python 3.7+), which iteration observes, so it is an association
    list; a lookup takes the first binding of a key. *)
Inductive value : Type :=
| VNone
| VBool (b : bool)
| VInt (n : Z)
| VStr (s : string)
| VList (xs : list value)
| VDict (kvs : list (string * value)).

Definition dict : Type := list (string * value).

Inductive exn : Type :=
| KeyError (key : string)
| TypeError
| AttributeError
| OSError
| ValueError.

Inductive res (A : Type) : Type :=
| Ok (a : A)
| Raise (e : exn).

Arguments Ok {A} a.
Arguments Raise {A} e.

Definition bind {A B : Type} (m : res A) (k : A -> res B) : res B :=
  match m with
  | Ok a => k a
  | Raise e => Raise e
  end.

Declare Scope res_scope.
Delimit Scope res_scope with res.
Notation "x <- m ;; k" := (bind m (fun x => k))
  (at level 61, m at next level, right associativity) : res_scope.
Local Open Scope res_scope.

(** Left-to-right evaluation of [[f(x) for x in xs]]. *)
Fixpoint mapM {A B : Type} (f : A -> res B) (xs : list A) : res (list B) :=
  match xs with
  | [] => Ok []
  | x :: xs' =>
      y <- f x ;;
      ys <- mapM f xs' ;;
      Ok (y :: ys)
  end.

(** [d.get(k)] before the default is applied. *)
Fixpoint dict_lookup (d : dict) (k : string) : option value :=
  match d with
  | [] => None
  | (k', v) :: d' => if String.eqb k' k then Some v else dict_lookup d' k
  end.

(** [d.get(k, default)]. *)
Definition dict_get (d : dict) (k : string) (default : value) : value :=
  match dict_lookup d k with
  | Some v => v
  | None => default
  end.

(** [d[k]]. *)
Definition dict_getitem (d : dict) (k : string) : res value :=
  match dict_lookup d k with
  | Some v => Ok v
  | None => Raise (KeyError k)
  end.

(** Truth value of an object in a condition. *)
Definition truthy (v : value) : bool :=
  match v with
  | VNone => false
  | VBool b => b
  | VInt n => negb (Z.eqb n 0)
  | VStr s => negb (String.eqb s "")
  | VList xs => match xs with [] => false | _ => true end
  | VDict kvs => match kvs with [] => false | _ => true end
  end.

(** [iter(v)] run to exhaustion: lists yield their elements, strings their
    characters, dicts their keys; the rest is not iterable. *)
Definition py_iter (v : value) : res (list value) :=
  match v with
  | VList xs => Ok xs
  | VStr s => Ok (map (fun c => VStr (String c EmptyString)) (list_ascii_of_string s))
  | VDict kvs => Ok (map (fun kv => VStr (fst kv)) kvs)
  | VNone | VBool _ | VInt _ => Raise TypeError
  end.

(** ** The file system seen by [os.walk] and [open] *)

(** A directory entry.  [read] is what [open(p, ...).read()] gives for the
    entry ([Raise] when opening or reading fails); [scandir] is the listing
    of a directory ([Raise] when it cannot be listed); [islink] marks a
    symbolic link to a directory. *)
Inductive entry : Type :=
| File (name : string) (read : res string)
| Dir (name : string) (islink : bool) (scandir : res (list entry)).

(** What [os.scandir(repo_path)] gives for the root handed to the scanner:
    [Raise] for a path that does not exist, is not a directory or cannot be
    listed. *)
Definition tree : Type := res (list entry).

Definition entry_name (e : entry) : string :=
  match e with
  | File n _ => n
  | Dir n _ _ => n
  end.

Definition is_dir (e : entry) : bool :=
  match e with
  | File _ _ => false
  | Dir _ _ _ => true
  end.

(** Opening a directory as a file raises. *)
Definition entry_read (e : entry) : res string :=
  match e with
  | File _ r => r
  | Dir _ _ _ => Raise OSError
  end.

(** [os.walk(top)], top-down, [onerror=None], [followlinks=False]: a
    directory that cannot be listed yields nothing; otherwise it yields its
    [(dirs, nondirs)] and then walks each sub-directory that is not a
    symbolic link, in listing order.  The walk of one directory whose
    entry is given: *)
Fixpoint walk (e : entry) : list (list entry * list entry) :=
  match e with
  | File _ _ => []
  | Dir _ _ (Raise _) => []
  | Dir _ _ (Ok es) =>
      (filter is_dir es, filter (fun x => negb (is_dir x)) es) ::
      (fix subdirs (l : list entry) : list (list entry * list entry) :=
         match l with
         | [] => []
         | File _ _ :: l' => subdirs l'
         | Dir _ true _ :: l' => subdirs l'
         | (Dir _ false _ as d) :: l' => walk d ++ subdirs l'
         end) es
  end.

Definition os_walk (top : tree) : list (list entry * list entry) :=
  walk (Dir "." false top).

(** ** Repository scanner *)

Definition excluded_extensions : list string :=
  [".png"; ".jpg"; ".jpeg"; ".gif"; ".class"].

Section Scanner.

(** [str.lower], a builtin: any function on strings. *)
Variable lower : string -> string.

(** [k.lower()]: only a [str] has the method. *)
Definition str_lower (v : value) : res string :=
  match v with
  | VStr s => Ok (lower s)
  | _ => Raise AttributeError
  end.

(** [[k.lower() for k in keywords]]. *)
Definition lower_keywords (keywords : value) : res (list string) :=
  ks <- py_iter keywords ;;
  mapM str_lower ks.

(** [for k in low_kw: if k in data: return True]; [false] stands for
    falling out of the loop. *)
Fixpoint scan_data (low_kw : list string) (data : string) : bool :=
  match low_kw with
  | [] => false
  | k :: low_kw' => if contains data k then true else scan_data low_kw' data
  end.

(** [for fn in files: ...] over the non-directories of one directory. *)
Fixpoint scan_files (low_kw : list string) (files : list entry) : bool :=
  match files with
  | [] => false
  | fn :: files' =>
      if endswith_any (entry_name fn) excluded_extensions
      then scan_files low_kw files'
      else
        match entry_read fn with
        | Ok text =>
            if scan_data low_kw (lower text) then true
            else scan_files low_kw files'
        | Raise _ => scan_files low_kw files'
        end
  end.

(** [for root, _, files in os.walk(repo_path): ...]. *)
Fixpoint scan_walk (low_kw : list string)
         (w : list (list entry * list entry)) : bool :=
  match w with
  | [] => false
  | (_, files) :: w' =>
      if scan_files low_kw files then true else scan_walk low_kw w'
  end.

Definition scan_repo_for_keywords (repo_path : tree) (keywords : value)
  : res bool :=
  low_kw <- lower_keywords keywords ;;
  Ok (scan_walk low_kw (os_walk repo_path)).

End Scanner.

(** ** Auditor *)

Section Auditor.

Variable lower : string -> string.

(** The loop of [audit_repo]; [results] is the list built so far. *)
Fixpoint audit_loop (repo_path : tree) (checklists : list dict)
         (results : list dict) : res (list dict) :=
  match checklists with
  | [] => Ok results
  | item :: checklists' =>
      present <- scan_repo_for_keywords lower repo_path
                   (dict_get item "keywords" (VList [])) ;;
      audit_loop repo_path checklists'
        (results ++
         [[("id", dict_get item "id" VNone);
           ("title", dict_get item "title" VNone);
           ("description", dict_get item "description" VNone);
           ("present", VBool present);
           ("remediation", dict_get item "remediation" VNone)]])
  end.

Definition audit_repo (repo_path : tree) (checklists : list dict)
  : res (list dict) :=
  audit_loop repo_path checklists [].

End Auditor.

(** ** Report generator *)

(** The renderer works on the list object bound to [results].  The object
    is threaded through every operation on it, so that an update made by
    the renderer would show in the state it hands back. *)
Definition st (A : Type) : Type := list dict -> res A * list dict.

Definition st_ret {A : Type} (a : A) : st A := fun h => (Ok a, h).

Definition st_bind {A B : Type} (m : st A) (k : A -> st B) : st B :=
  fun h =>
    match m h with
    | (Ok a, h') => k a h'
    | (Raise e, h') => (Raise e, h')
    end.

Declare Scope st_scope.
Delimit Scope st_scope with st.
Notation "x <- m ;; k" := (st_bind m (fun x => k))
  (at level 61, m at next level, right associativity) : st_scope.

(** [len(results)]. *)
Definition results_len : st nat := fun h => (Ok (List.length h), h).

(** [for r in results]: the elements, in order. *)
Definition results_iter : st (list dict) := fun h => (Ok h, h).

(** [r[k]]. *)
Definition getitem (r : dict) (k : string) : st value :=
  fun h => (dict_getitem r k, h).

(** [r.get(k, default)]. *)
Definition get (r : dict) (k : string) (default : value) : st value :=
  fun h => (Ok (dict_get r k default), h).

Section Report.

(** [str] of a list or a dict, a builtin: any function. *)
Variable repr : value -> string.

(** What an f-string puts for [{v}]. *)
Definition py_str (v : value) : string :=
  match v with
  | VNone => "None"
  | VBool true => "True"
  | VBool false => "False"
  | VInt n => str_of_Z n
  | VStr s => s
  | VList _ | VDict _ => repr v
  end.

Local Open Scope st_scope.

(** [sum(1 for r in results if r['present'])], from the running total. *)
Fixpoint sum_present (rs : list dict) (total : nat) : st nat :=
  match rs with
  | [] => st_ret total
  | r :: rs' =>
      p <- getitem r "present" ;;
      sum_present rs' (if truthy p then total + 1 else total)
  end.

(** The body of [for r in results] for one [r]. *)
Definition render_result (r : dict) (lines : list string) : st (list string) :=
  p <- getitem r "present" ;;
  let status := if truthy p then "PASS" else "FAIL" in
  i <- getitem r "id" ;;
  t <- getitem r "title" ;;
  let lines := lines ++ [("## " ++ py_str i ++ " - " ++ py_str t ++ "  ")%string] in
  let lines := lines ++ [("- Status: **" ++ status ++ "**")%string] in
  d <- get r "description" (VStr "") ;;
  let lines := lines ++ [("- Description: " ++ py_str d)%string] in
  q <- getitem r "present" ;;
  lines <- (if negb (truthy q)
            then m <- get r "remediation" (VStr "") ;;
                 st_ret (lines ++ [("- Remediation: " ++ py_str m)%string])
            else st_ret lines) ;;
  st_ret (lines ++ [""]).

Fixpoint render_results (rs : list dict) (lines : list string)
  : st (list string) :=
  match rs with
  | [] => st_ret lines
  | r :: rs' =>
      lines <- render_result r lines ;;
      render_results rs' lines
  end.

Definition generate_markdown_report (results : list dict) (title : string)
  : res string * list dict :=
  (let lines := [("# " ++ title)%string; ""] in
   rs <- results_iter ;;
   passed <- sum_present rs 0 ;;
   n <- results_len ;;
   let lines := lines ++ [("- Total checks: " ++ str_of_nat n)%string] in
   let lines := lines ++ [("- Checks detected (heuristic pass): " ++ str_of_nat passed)%string] in
   let lines := lines ++ [""] in
   rs <- results_iter ;;
   lines <- render_results rs lines ;;
   st_ret (String.concat NL lines)) results.

End Report.

(** ** Checklist loader *)

(** What the loader sees of its directory: [isdir] is
    [os.path.isdir(path)], [listdir] is [os.listdir(path)], and
    [load_json fname] is the outcome of opening [os.path.join(path, fname)]
    and running [json.load] on it ([Raise] when either fails). *)
Record checklist_dir : Type := {
  isdir : bool;
  listdir : res (list string);
  load_json : string -> res value
}.

(** [for fname in os.listdir(path): ...]; [checklists.extend(items)]
    iterates [items] before it appends anything, and an exception anywhere
    in the [try] leaves [checklists] as it was. *)
Fixpoint load_files (path : checklist_dir) (fnames : list string)
         (checklists : list value) : list value :=
  match fnames with
  | [] => checklists
  | fname :: fnames' =>
      if negb (endswith fname ".json")
      then load_files path fnames' checklists
      else
        match (items <- load_json path fname ;; py_iter items) with
        | Ok xs => load_files path fnames' (checklists ++ xs)
        | Raise _ => load_files path fnames' checklists
        end
  end.

Definition load_checklists (path : checklist_dir) : res (list value) :=
  let checklists := [] in
  if negb (isdir path) then Ok checklists
  else
    fnames <- listdir path ;;
    Ok (load_files path fnames checklists).

(** ** A concrete [str.lower] on ASCII text, to run the definitions *)

Definition ascii_lower_char (c : ascii) : ascii :=
  let n := nat_of_ascii c in
  if ((65 <=? n)%nat && (n <=? 90)%nat)%bool then ascii_of_nat (n + 32) else c.

Fixpoint ascii_lower (s : string) : string :=
  match s with
  | EmptyString => EmptyString
  | String c s' => String (ascii_lower_char c) (ascii_lower s')
  end.

(** ** What the specification talks about *)

(** [k] occurs in [data] as a substring. *)
Definition occurs_in (k data : string) : Prop :=
  exists pre post, data = (pre ++ k ++ post)%string.

(** [s] ends in [suf]. *)
Definition has_suffix (s suf : string) : Prop :=
  exists pre, s = (pre ++ suf)%string.

(** The name ends in one of the excluded binary extensions. *)
Definition binary_name (name : string) : Prop :=
  exists ext, In ext excluded_extensions /\ has_suffix name ext.

(** The non-directory entries the walk gets to from a listing: those of the
    listing itself and those of the sub-directories it can list, symbolic
    links to directories apart. *)
Inductive reachable : list entry -> entry -> Prop :=
| reach_here (es : list entry) (f : entry) :
    In f es -> is_dir f = false -> reachable es f
| reach_sub (es : list entry) (n : string) (sub : list entry) (f : entry) :
    In (Dir n false (Ok sub)) es -> reachable sub f -> reachable es f.

Definition reaches (top : tree) (f : entry) : Prop :=
  exists es, top = Ok es /\ reachable es f.

(** [walk] goes into a sub-directory unless it is a symbolic link. *)
Definition enters (e : entry) : bool :=
  match e with
  | Dir _ false _ => true
  | _ => false
  end.

Section ScannerWords.

Variable lower : string -> string.

(** A file the scanner opens, reads, and finds a keyword in. *)
Definition file_hit (low_kw : list string) (f : entry) : Prop :=
  endswith_any (entry_name f) excluded_extensions = false /\
  exists text, entry_read f = Ok text /\ scan_data low_kw (lower text) = true.

(** A keyword hit, in the words of the specification. *)
Definition keyword_hit (top : tree) (ks : list string) : Prop :=
  exists name data k,
    reaches top (File name (Ok data)) /\
    ~ binary_name name /\
    In k ks /\
    occurs_in (lower k) (lower data).

End ScannerWords.

(** ** Checklist items of the data model *)

(** The strings of a list of values, when all of them are strings. *)
Fixpoint as_strs (xs : list value) : option (list string) :=
  match xs with
  | [] => Some []
  | VStr s :: xs' =>
      match as_strs xs' with
      | Some ss => Some (s :: ss)
      | None => None
      end
  | _ :: _ => None
  end.

(** The keywords of a checklist item as the data model has them: a list of
    strings, or no [keywords] field at all, which stands for no keyword. *)
Definition item_keywords (item : dict) : option (list string) :=
  match dict_lookup item "keywords" with
  | None => Some []
  | Some (VList xs) => as_strs xs
  | Some _ => None
  end.

Definition keywords_typed (item : dict) : bool :=
  match item_keywords item with
  | Some _ => true
  | None => false
  end.

(** The keyword set is empty, or the field is missing. *)
Definition no_keywords (item : dict) : Prop :=
  dict_lookup item "keywords" = None \/
  dict_lookup item "keywords" = Some (VList []).

(** The keywords the scanner is run on for a well-typed item. *)
Definition keywords_of (item : dict) : list string :=
  match item_keywords item with
  | Some ks => ks
  | None => []
  end.

Section AuditorWords.

Variable lower : string -> string.

(** One turn of the loop of [audit_repo]. *)
Definition audit_item (top : tree) (item : dict) : res dict :=
  present <- scan_repo_for_keywords lower top
               (dict_get item "keywords" (VList [])) ;;
  Ok [("id", dict_get item "id" VNone);
      ("title", dict_get item "title" VNone);
      ("description", dict_get item "description" VNone);
      ("present", VBool present);
      ("remediation", dict_get item "remediation" VNone)].

(** The result the auditor builds for a well-typed item. *)
Definition audit_result (top : tree) (item : dict) : dict :=
  [("id", dict_get item "id" VNone);
   ("title", dict_get item "title" VNone);
   ("description", dict_get item "description" VNone);
   ("present", VBool (scan_walk lower (map lower (keywords_of item)) (os_walk top)));
   ("remediation", dict_get item "remediation" VNone)].

End AuditorWords.

(** A root under which no file is scanned: it does not exist (or cannot be
    listed), it is empty, or every file reachable from it has a name ending
    in an excluded binary extension, whatever the file holds. *)
Definition nothing_to_scan (top : tree) : Prop :=
  (exists x, top = Raise x) \/
  top = Ok [] \/
  (forall f, reaches top f -> binary_name (entry_name f)).

(** A file the scanner opens and reads: reachable, readable, and with a
    name that does not end in an excluded binary extension. *)
Definition scannable_file (top : tree) : Prop :=
  exists name data, reaches top (File name (Ok data)) /\ ~ binary_name name.

(** The result has the field. *)
Definition has_key (r : dict) (k : string) : bool :=
  match dict_lookup r k with
  | Some _ => true
  | None => false
  end.

(** The fields the renderer subscripts: every result made by [audit_repo]
    has them. *)
Definition has_required (r : dict) : bool :=
  has_key r "present" && has_key r "id" && has_key r "title".

(** The truth value of the [present] field. *)
Definition present_of (r : dict) : bool :=
  match dict_lookup r "present" with
  | Some v => truthy v
  | None => false
  end.

Section ReportWords.

Variable repr : value -> string.

(** What a field shows as: the text of its value, and the empty string when
    the result has no such field. *)
Definition field_text (r : dict) (k : string) : string :=
  py_str repr (dict_get r k (VStr "")).

(** The section of one result. *)
Definition section_lines (r : dict) : list string :=
  [("## " ++ field_text r "id" ++ " - " ++ field_text r "title" ++ "  ")%string;
   ("- Status: **" ++ (if present_of r then "PASS" else "FAIL") ++ "**")%string;
   ("- Description: " ++ field_text r "description")%string]
  ++ (if present_of r then [] else [("- Remediation: " ++ field_text r "remediation")%string])
  ++ [""].

(** The heading and the summary block. *)
Definition head_lines (title : string) (results : list dict) : list string :=
  [("# " ++ title)%string;
   "";
   ("- Total checks: " ++ str_of_nat (List.length results))%string;
   ("- Checks detected (heuristic pass): "
      ++ str_of_nat (List.length (filter present_of results)))%string;
   ""].

Definition report_lines (title : string) (results : list dict) : list string :=
  head_lines title results ++ flat_map section_lines results.

End ReportWords.

(** The file yields no items: it cannot be opened or parsed, or what it
    holds cannot be iterated. *)
Definition fails_to_load (path : checklist_dir) (fname : string) : Prop :=
  exists x, (items <- load_json path fname ;; py_iter items) = Raise x.

(** ** Sample data *)

(** The checklist item and the repositories of the specification's
    scenarios. *)
Definition sample_item : dict :=
  [("id", VStr "C1"); ("title", VStr "Has license");
   ("keywords", VList [VStr "license"]);
   ("remediation", VStr "Add LICENSE file")].

Definition sample_repo : tree :=
  Ok [File "README.md" (Ok "This project is MIT License");
      File "logo.png" (Ok "license")].

(** Only files with excluded extensions, one of them in a sub-directory;
    both hold the keyword. *)
Definition binary_only_repo : tree :=
  Ok [File "logo.png" (Ok "license");
      Dir "img" false (Ok [File "a.gif" (Ok "MIT License")])].

Definition item_without_keywords : dict :=
  [("id", VStr "C2"); ("title", VStr "Has policy")].

Definition empty_file_repo : tree := Ok [File "notes.txt" (Ok "")].

Definition item_empty_keyword : dict :=
  [("id", VStr "C3"); ("keywords", VList [VStr ""])].

(** Results handed to the renderer. *)
Definition result_without_id : dict :=
  [("title", VStr "Has license"); ("description", VStr "A license file");
   ("present", VBool true); ("remediation", VStr "Add LICENSE file")].

Definition result_without_description : dict :=
  [("id", VStr "C1"); ("title", VStr "Has license"); ("present", VBool false)].

Definition result_pass : dict :=
  [("id", VStr "C1"); ("title", VStr "Has license"); ("description", VNone);
   ("present", VBool true); ("remediation", VStr "Add LICENSE file")].

Definition result_fail : dict :=
  [("id", VStr "C1"); ("title", VStr "Has license"); ("description", VNone);
   ("present", VBool false); ("remediation", VStr "Add LICENSE file")].

(** A stand-in for [str] on lists and dicts where none occurs. *)
Definition no_repr : value -> string := fun _ => "".

(** A directory that exists and cannot be listed. *)
Definition unlistable_dir : checklist_dir :=
  {| isdir := true;
     listdir := Raise OSError;
     load_json := fun _ => Raise OSError |}.

(** A directory with a checklist file, a malformed one and a file that is
    not a checklist. *)
Definition sample_dir : checklist_dir :=
  {| isdir := true;
     listdir := Ok ["base.json"; "broken.json"; "README.md"; "more.json"];
     load_json := fun fname =>
       if String.eqb fname "base.json" then Ok (VList [VDict sample_item])
       else if String.eqb fname "more.json" then Ok (VList [VDict item_without_keywords])
       else Raise ValueError |}.

(** ** More words for the scanner, the auditor and the loader *)

(** The strings a value yields when it is iterated, if it yields strings
    only: the elements of a list of strings, the characters of a string,
    the keys of a dict. *)
Definition keyword_strings (v : value) : option (list string) :=
  match v with
  | VList xs => as_strs xs
  | VStr s => Some (map (fun c => String c EmptyString) (list_ascii_of_string s))
  | VDict kvs => Some (map fst kvs)
  | VNone | VBool _ | VInt _ => None
  end.

(** The two roots give the scanner the same files to read: the same names
    without an excluded extension, with the same content. *)
Definition same_scannable (t1 t2 : tree) : Prop :=
  forall name data,
    ~ binary_name name ->
    (reaches t1 (File name (Ok data)) <-> reaches t2 (File name (Ok data))).

(** The keys of an audit result, in the order of the dict literal. *)
Definition result_keys : list string :=
  ["id"; "title"; "description"; "present"; "remediation"].

(** What one listed name adds to the checklist: the items of a [.json]
    file that loads, nothing otherwise. *)
Definition file_items (path : checklist_dir) (fname : string) : list value :=
  if endswith fname ".json"
  then match (items <- load_json path fname ;; py_iter items) with
       | Ok xs => xs
       | Raise _ => []
       end
  else [].

(** Two roots with the same readable text, one flat, one with a
    sub-directory, an unreadable file and an image. *)
Definition flat_repo : tree :=
  Ok [File "a.txt" (Ok "alpha"); File "b.txt" (Ok "beta")].

Definition nested_repo : tree :=
  Ok [Dir "d" false (Ok [File "b.txt" (Ok "beta")]);
      File "c.txt" (Raise OSError);
      File "a.txt" (Ok "alpha");
      File "x.png" (Ok "alpha beta")].

(** A directory whose listing also holds a file that is not a checklist
    and a checklist that holds an object instead of a list. *)
Definition mixed_dir : checklist_dir :=
  {| isdir := true;
     listdir := Ok ["notes.txt"; "base.json"; "object.json"];
     load_json := fun fname =>
       if String.eqb fname "base.json" then Ok (VList [VDict sample_item])
       else if String.eqb fname "object.json" then Ok (VDict sample_item)
       else Ok (VList [VInt 1]) |}.

(** The same directory where [notes.txt] holds something else. *)
Definition mixed_dir' : checklist_dir :=
  {| isdir := true;
     listdir := Ok ["notes.txt"; "base.json"; "object.json"];
     load_json := fun fname =>
       if String.eqb fname "base.json" then Ok (VList [VDict sample_item])
       else if String.eqb fname "object.json" then Ok (VDict sample_item)
       else Raise OSError |}.

(** A directory in which no checklist file loads. *)
Definition broken_dir : checklist_dir :=
  {| isdir := true;
     listdir := Ok ["broken.json"; "README.md"; "number.json"];
     load_json := fun fname =>
       if String.eqb fname "number.json" then Ok (VInt 3)
       else if String.eqb fname "README.md" then Ok (VList [VDict sample_item])
       else Raise ValueError |}.

(** The scanner answers true for the item's keywords. *)
Definition item_detected (lower : string -> string) (top : tree) (item : dict) : bool :=
  match scan_repo_for_keywords lower top (dict_get item "keywords" (VList [])) with
  | Ok b => b
  | Raise _ => false
  end.

(** The result of auditing [item_without_keywords]. *)
Definition result_no_policy : dict :=
  [("id", VStr "C2"); ("title", VStr "Has policy"); ("description", VNone);
   ("present", VBool false); ("remediation", VNone)].

(** ** The command line: [main.py] *)

(** The checklist as the loader hands it over may hold anything; the
    auditor calls [item.get], which only a dict has.  Each dict goes
    through the loop of [audit_repo]. *)
Fixpoint audit_repo_any (lower : string -> string) (repo_path : tree)
         (checklists : list value) (results : list dict) : res (list dict) :=
  match checklists with
  | [] => Ok results
  | VDict item :: checklists' =>
      results' <- audit_loop lower repo_path [item] results ;;
      audit_repo_any lower repo_path checklists' results'
  | _ :: _ => Raise AttributeError
  end.

(** What a command does to the outside: the files it opens for writing,
    what it writes, what it prints, the archive it builds and the files it
    removes. *)
Inductive event : Type :=
| EOpen (path : string)
| EWrite (path : string) (text : string)
| EClose (path : string)
| EPrint (text : string)
| EPrintHelp
| EZipOpen (path : string)
| EZipWrite (path : string) (member : string)
| EZipClose (path : string)
| ERemove (path : string).

(** The operations attempted so far, each with the exception it raised,
    if any. *)
Definition log : Type := list (event * option exn).

(** What a command reads and relies on: the builtins, the current
    directory, the tree under a path, the [checklists] directory of the
    package, the clock, [json.dumps(_, indent=2)], and how the system
    answers an operation after the ones already attempted. *)
Record env : Type := {
  env_lower : string -> string;
  env_repr : value -> string;
  getcwd : string;
  tree_at : string -> tree;
  package_checklists : checklist_dir;
  utcnow_isoformat : string;
  json_dumps : value -> string;
  outcome : log -> event -> option exn
}.

Definition io (A : Type) : Type := log -> res A * log.

Definition io_ret {A : Type} (a : A) : io A := fun l => (Ok a, l).

Definition io_bind {A B : Type} (m : io A) (k : A -> io B) : io B :=
  fun l =>
    match m l with
    | (Ok a, l') => k a l'
    | (Raise e, l') => (Raise e, l')
    end.

(** A computation that touches nothing outside. *)
Definition io_lift {A : Type} (r : res A) : io A := fun l => (r, l).

(** [try: m finally: c], which is what leaving a [with] block does: [c]
    runs whether [m] raised or not, and an exception of [c] is the one
    that goes on. *)
Definition io_finally {A : Type} (m : io A) (c : io unit) : io A :=
  fun l =>
    match m l with
    | (r, l') =>
        match c l' with
        | (Ok _, l'') => (r, l'')
        | (Raise e, l'') => (Raise e, l'')
        end
    end.

Declare Scope io_scope.
Delimit Scope io_scope with io.
Notation "x <- m ;; k" := (io_bind m (fun x => k))
  (at level 61, m at next level, right associativity) : io_scope.

(** One operation on the outside. *)
Definition perform (E : env) (ev : event) : io unit :=
  fun l =>
    match outcome E l ev with
    | None => (Ok tt, l ++ [(ev, None)])
    | Some e => (Raise e, l ++ [(ev, Some e)])
    end.

(** [a or b] on an optional string: None and the empty string are false. *)
Definition or_default (a : option string) (b : string) : string :=
  match a with
  | Some s => if String.eqb s "" then b else s
  | None => b
  end.

(** The namespace [parse_args] returns. *)
Record args : Type := {
  cmd : option string;
  repo : option string;
  out : option string
}.

Section Commands.

Variable E : env.

Local Open Scope io_scope.

(** [with open(path, 'w', encoding='utf-8') as f: f.write(text)] (or
    [json.dump(_, f)] with [text] the dump). *)
Definition write_file (path text : string) : io unit :=
  _ <- perform E (EOpen path) ;;
  io_finally (perform E (EWrite path text)) (perform E (EClose path)).

(** The first three statements of [cmd_audit], [cmd_report] and
    [cmd_certify]. *)
Definition load_and_audit (a : args) : res (list dict) :=
  let repo := or_default (repo a) (getcwd E) in
  bind (load_checklists (package_checklists E)) (fun checks =>
  audit_repo_any (env_lower E) (tree_at E repo) checks []).

(** The call of [generate_markdown_report]; the list it hands back is the
    one bound to [results] afterwards. *)
Definition render (results : list dict) (title : string)
  : io (string * list dict) :=
  match generate_markdown_report (env_repr E) results title with
  | (Ok md, results') => io_ret (md, results')
  | (Raise e, _) => io_lift (Raise e)
  end.

Definition dump_results (results : list dict) : string :=
  json_dumps E (VList (map VDict results)).

Definition cmd_audit (a : args) : io unit :=
  results <- io_lift (load_and_audit a) ;;
  match out a with
  | Some o =>
      if String.eqb o "" then perform E (EPrint (dump_results results))
      else
        _ <- write_file o (dump_results results) ;;
        perform E (EPrint ("Wrote audit JSON to " ++ o)%string)
  | None => perform E (EPrint (dump_results results))
  end.

Definition cmd_report (a : args) : io unit :=
  results <- io_lift (load_and_audit a) ;;
  r <- render results ("Compliance Report (" ++ utcnow_isoformat E ++ "Z)")%string ;;
  let md := fst r in
  let out := or_default (out a) "compliance-report.md" in
  _ <- write_file out md ;;
  perform E (EPrint ("Wrote report to " ++ out)%string).

Definition cmd_certify (a : args) : io unit :=
  results <- io_lift (load_and_audit a) ;;
  r <- render results ("Certification Packet (" ++ utcnow_isoformat E ++ "Z)")%string ;;
  let md := fst r in
  let results := snd r in
  let out := or_default (out a) "certification-packet.zip" in
  let tmp_md := "tmp_compliance_report.md" in
  let tmp_json := "tmp_audit.json" in
  _ <- write_file tmp_md md ;;
  _ <- write_file tmp_json (dump_results results) ;;
  _ <- (_ <- perform E (EZipOpen out) ;;
        io_finally
          (_ <- perform E (EZipWrite out tmp_md) ;;
           perform E (EZipWrite out tmp_json))
          (perform E (EZipClose out))) ;;
  _ <- perform E (ERemove tmp_md) ;;
  _ <- perform E (ERemove tmp_json) ;;
  perform E (EPrint ("Wrote certification packet to " ++ out)%string).

Definition cmd_checklist (a : args) : io unit :=
  checks <- io_lift (load_checklists (package_checklists E)) ;;
  perform E (EPrint (json_dumps E (VList checks))).

(** The dispatch of [main], once the arguments are parsed. *)
Definition main (a : args) : io unit :=
  match cmd a with
  | Some c =>
      if String.eqb c "audit" then cmd_audit a
      else if String.eqb c "report" then cmd_report a
      else if String.eqb c "certify" then cmd_certify a
      else if String.eqb c "checklist" then cmd_checklist a
      else perform E EPrintHelp
  | None => perform E EPrintHelp
  end.

End Commands.

(** An option that is the empty string, taken as no option. *)
Definition blank_as_none (o : option string) : option string :=
  match o with
  | Some s => if String.eqb s "" then None else Some s
  | None => None
  end.

Definition without_blanks (a : args) : args :=
  {| cmd := cmd a; repo := blank_as_none (repo a); out := blank_as_none (out a) |}.

(** The operation is a print. *)
Definition is_print (ev : event) : bool :=
  match ev with
  | EPrint _ | EPrintHelp => true
  | _ => false
  end.

(** An element of a loaded checklist the auditor cannot take: not a dict,
    or a dict whose keywords are not an iterable of strings. *)
Definition bad_item (v : value) : Prop :=
  match v with
  | VDict item => keyword_strings (dict_get item "keywords" (VList [])) = None
  | _ => True
  end.

(** A system on which every operation succeeds, one on which an archive
    cannot be opened, and the environments built on them. *)
Definition always_ok : log -> event -> option exn := fun _ _ => None.

Definition no_archive : log -> event -> option exn :=
  fun _ ev => match ev with EZipOpen _ => Some OSError | _ => None end.

Definition sample_env (d : checklist_dir) (o : log -> event -> option exn) : env :=
  {| env_lower := ascii_lower;
     env_repr := no_repr;
     getcwd := "/work";
     tree_at := fun path => if String.eqb path "/work" then sample_repo else Raise OSError;
     package_checklists := d;
     utcnow_isoformat := "2024-01-01T00:00:00";
     json_dumps := fun _ => "[...]";
     outcome := o |}.

Definition no_args (c : string) : args :=
  {| cmd := Some c; repo := None; out := None |}.

(** One turn of the auditor on an element of a loaded checklist. *)
Definition audit_value (lower : string -> string) (top : tree) (v : value)
  : res dict :=
  match v with
  | VDict item => audit_item lower top item
  | _ => Raise AttributeError
  end.

(** The command, started after [l], attempts the operations [suffix]. *)
Definition attempts {A : Type} (m : io A) (l : log) (suffix : log) : Prop :=
  snd (m l) = l ++ suffix.

(** The temporary files of [cmd_certify] and the path of its archive. *)
Definition tmp_md : string := "tmp_compliance_report.md".
Definition tmp_json : string := "tmp_audit.json".
Definition packet_path (a : args) : string :=
  or_default (out a) "certification-packet.zip".

(** * Properties *)

(** ** Strings: the boolean tests decide the properties *)

Lemma startswith_spec (s p : string) :
  startswith s p = true <-> exists post, s = (p ++ post)%string.
Proof.
  revert s; induction p as [|c p IH]; intros s; simpl.
  - split; [intros _; now exists s | reflexivity].
  - destruct s as [|d s].
    + split; [discriminate | intros [post H]; discriminate].
    + rewrite andb_true_iff, Ascii.eqb_eq, IH. split.
      * intros [-> [post ->]]. now exists post.
      * intros [post H]. injection H as -> ->. split; [reflexivity | now exists post].
Qed.

Lemma contains_spec (data k : string) :
  contains data k = true <-> occurs_in k data.
Proof.
  unfold occurs_in. induction data as [|c data IH]; simpl.
  - rewrite orb_false_r, startswith_spec. split.
    + intros [post H]. now exists EmptyString, post.
    + intros [pre [post H]]. destruct pre; simpl in H.
      * now exists post.
      * discriminate.
  - rewrite orb_true_iff, startswith_spec, IH. split.
    + intros [[post H] | [pre [post H]]].
      * now exists EmptyString, post.
      * exists (String c pre), post. simpl. now rewrite H.
    + intros [pre [post H]]. destruct pre as [|d pre]; simpl in H.
      * left. now exists post.
      * right. injection H as _ H. now exists pre, post.
Qed.

Lemma endswith_spec (s suf : string) :
  endswith s suf = true <-> has_suffix s suf.
Proof.
  unfold has_suffix. induction s as [|c s IH]; cbn [endswith].
  - rewrite orb_false_r, String.eqb_eq. split.
    + intros <-. now exists EmptyString.
    + intros [pre H]. destruct pre; simpl in H; [congruence | destruct suf; discriminate].
  - rewrite orb_true_iff, String.eqb_eq, IH. split.
    + intros [<- | [pre ->]].
      * now exists EmptyString.
      * now exists (String c pre).
    + intros [pre H]. destruct pre as [|d pre]; simpl in H.
      * left. congruence.
      * right. injection H as _ H. now exists pre.
Qed.

Lemma endswith_any_spec (name : string) :
  endswith_any name excluded_extensions = true <-> binary_name name.
Proof.
  unfold endswith_any, binary_name. rewrite existsb_exists.
  split; intros [ext [Hin H]]; exists ext; (split; [exact Hin | now apply endswith_spec]).
Qed.

(** ** The walk yields the reachable files *)

(** Induction on entries, through the listings. *)
Lemma entry_nested_ind (P : entry -> Prop)
  (HF : forall n r, P (File n r))
  (HR : forall n l x, P (Dir n l (Raise x)))
  (HD : forall n l es, Forall P es -> P (Dir n l (Ok es))) :
  forall e, P e.
Proof.
  fix IH 1. intros [n r | n l [es | x]].
  - apply HF.
  - apply HD. induction es as [|e es IHes]; constructor; [apply IH | exact IHes].
  - apply HR.
Qed.

Lemma walk_Ok (n : string) (l : bool) (es : list entry) :
  walk (Dir n l (Ok es)) =
  (filter is_dir es, filter (fun x => negb (is_dir x)) es) ::
  flat_map (fun e => if enters e then walk e else []) es.
Proof.
  cbn [walk]. f_equal.
  induction es as [|[n' r | n' [|] t] es IH]; cbn [flat_map enters app];
    try rewrite <- IH; reflexivity.
Qed.

Lemma in_flat_map_twice {A B C : Type} (g : A -> list B) (h : B -> list C)
      (l : list A) (c : C) :
  In c (flat_map h (flat_map g l)) <->
  exists a, In a l /\ In c (flat_map h (g a)).
Proof.
  rewrite in_flat_map. split.
  - intros (b & Hb & Hc). apply in_flat_map in Hb. destruct Hb as (a & Ha & Hb).
    exists a. split; [exact Ha|]. apply in_flat_map. eauto.
  - intros (a & Ha & Hc). apply in_flat_map in Hc. destruct Hc as (b & Hb & Hc).
    exists b. split; [|exact Hc]. apply in_flat_map. eauto.
Qed.

Lemma walk_reachable (e f : entry) :
  In f (flat_map snd (walk e)) <->
  exists n l es, e = Dir n l (Ok es) /\ reachable es f.
Proof.
  revert f. induction e as [n r | n l x | n l es IH] using entry_nested_ind; intros f.
  - simpl. split; [tauto | intros (? & ? & ? & H & _); discriminate].
  - simpl. split; [tauto | intros (? & ? & ? & H & _); discriminate].
  - rewrite walk_Ok. cbn [flat_map snd]. rewrite in_app_iff, filter_In.
    rewrite in_flat_map_twice. rewrite Forall_forall in IH. split.
    + intros [[Hin Hd] | (d & Hd & Hf)].
      * exists n, l, es. split; [reflexivity|].
        apply reach_here; [exact Hin | now destruct (is_dir f)].
      * exists n, l, es. split; [reflexivity|].
        destruct d as [? ? | n' [|] t]; cbn [enters] in Hf; try (simpl in Hf; tauto).
        apply (IH _ Hd) in Hf. destruct Hf as (n2 & l2 & sub & E & Hr).
        injection E as <- <- ->. eapply reach_sub; eauto.
    + intros (n0 & l0 & es0 & E & Hr). injection E as <- <- <-.
      inversion Hr as [es' f' Hin Hd | es' n' sub f' Hin Hsub]; subst.
      * left. split; [exact Hin | now rewrite Hd].
      * right. exists (Dir n' false (Ok sub)). split; [exact Hin|].
        cbn [enters]. apply (IH _ Hin). now exists n', false, sub.
Qed.

Lemma os_walk_reaches (top : tree) (f : entry) :
  In f (flat_map snd (os_walk top)) <-> reaches top f.
Proof.
  unfold os_walk, reaches. rewrite walk_reachable. split.
  - intros (n & l & es & E & Hr). injection E as _ _ ->. now exists es.
  - intros (es & -> & Hr). now exists ".", false, es.
Qed.

(** ** The scanning loops *)

Section ScannerLoops.

Variable lower : string -> string.

Lemma lower_keywords_strs (ks : list string) :
  lower_keywords lower (VList (map VStr ks)) = Ok (map lower ks).
Proof.
  unfold lower_keywords. cbn [py_iter bind].
  induction ks as [|k ks IH]; [reflexivity|].
  cbn [map mapM str_lower bind]. now rewrite IH.
Qed.

Lemma scan_data_true (low_kw : list string) (data : string) :
  scan_data low_kw data = true <->
  exists k, In k low_kw /\ contains data k = true.
Proof.
  induction low_kw as [|k ks IH]; simpl.
  - split; [discriminate | intros (? & [] & _)].
  - destruct (contains data k) eqn:E.
    + split; [intros _; exists k; auto | reflexivity].
    + rewrite IH. split.
      * intros (k' & Hin & Hc). exists k'; auto.
      * intros (k' & [<- | Hin] & Hc); [congruence | exists k'; auto].
Qed.

Lemma scan_files_true (low_kw : list string) (files : list entry) :
  scan_files lower low_kw files = true <->
  exists f, In f files /\ file_hit lower low_kw f.
Proof.
  unfold file_hit. induction files as [|f fs IH]; cbn [scan_files].
  - split; [discriminate | intros (? & [] & _)].
  - destruct (endswith_any (entry_name f) excluded_extensions) eqn:Ex.
    + rewrite IH. split.
      * intros (g & Hin & H). exists g. split; [now right | exact H].
      * intros (g & [<- | Hin] & Hn & H); [congruence | exists g; auto].
    + destruct (entry_read f) as [text | x] eqn:Er.
      * destruct (scan_data low_kw (lower text)) eqn:Es.
        -- split; [intros _ | reflexivity].
           exists f. split; [now left | split; [exact Ex | now exists text]].
        -- rewrite IH. split.
           ++ intros (g & Hin & H). exists g. split; [now right | exact H].
           ++ intros (g & [<- | Hin] & Hn & text' & Hr & Hs).
              ** congruence.
              ** exists g. split; [exact Hin | split; [exact Hn | now exists text']].
      * rewrite IH. split.
        -- intros (g & Hin & H). exists g. split; [now right | exact H].
        -- intros (g & [<- | Hin] & Hn & text' & Hr & Hs).
           ++ congruence.
           ++ exists g. split; [exact Hin | split; [exact Hn | now exists text']].
Qed.

Lemma scan_walk_true (low_kw : list string) (w : list (list entry * list entry)) :
  scan_walk lower low_kw w = true <->
  exists f, In f (flat_map snd w) /\ file_hit lower low_kw f.
Proof.
  induction w as [|[ds fs] w IH]; cbn [scan_walk flat_map snd].
  - split; [discriminate | intros (? & [] & _)].
  - destruct (scan_files lower low_kw fs) eqn:E.
    + split; [intros _ | reflexivity].
      apply scan_files_true in E. destruct E as (f & Hin & H).
      exists f. split; [apply in_or_app; now left | exact H].
    + rewrite IH. split.
      * intros (f & Hin & H). exists f. split; [apply in_or_app; now right | exact H].
      * intros (f & Hin & H). apply in_app_or in Hin. destruct Hin as [Hin | Hin].
        -- assert (scan_files lower low_kw fs = true) by (apply scan_files_true; eauto).
           congruence.
        -- eauto.
Qed.

(** The scanner on a list of strings never raises. *)
Lemma scan_strs (top : tree) (ks : list string) :
  scan_repo_for_keywords lower top (VList (map VStr ks)) =
  Ok (scan_walk lower (map lower ks) (os_walk top)).
Proof.
  unfold scan_repo_for_keywords. now rewrite lower_keywords_strs.
Qed.

Lemma scan_walk_hit (top : tree) (ks : list string) :
  scan_walk lower (map lower ks) (os_walk top) = true <-> keyword_hit lower top ks.
Proof.
  rewrite scan_walk_true. unfold file_hit, keyword_hit. split.
  - intros (f & Hin & Hex & text & Hr & Hs).
    apply os_walk_reaches in Hin.
    apply scan_data_true in Hs. destruct Hs as (k' & Hk & Hc).
    apply in_map_iff in Hk. destruct Hk as (k & <- & Hk).
    destruct f as [name r | n l t]; [|discriminate].
    cbn [entry_read entry_name] in *. subst r.
    exists name, text, k. repeat split; auto.
    + intros Hb. apply endswith_any_spec in Hb. congruence.
    + now apply contains_spec.
  - intros (name & data & k & Hr & Hb & Hk & Ho).
    exists (File name (Ok data)). split; [now apply os_walk_reaches|].
    cbn [entry_name entry_read]. split.
    + destruct (endswith_any name excluded_extensions) eqn:E; [|reflexivity].
      exfalso. apply Hb. now apply endswith_any_spec.
    + exists data. split; [reflexivity|].
      apply scan_data_true. exists (lower k). split; [now apply in_map | now apply contains_spec].
Qed.

End ScannerLoops.

(** C1. On a list of keyword strings the scanner never raises: it returns
    a boolean, which is [true] exactly when some file reachable from the
    root, whose name does not end in an excluded binary extension and which
    can be read, has lower-cased content containing the lower-cased form of
    one of the keywords; otherwise it is [false].  Files that cannot be
    read are passed over. *)
Theorem scan_repo_for_keywords_iff (lower : string -> string)
        (top : tree) (ks : list string) :
  exists b : bool,
    scan_repo_for_keywords lower top (VList (map VStr ks)) = Ok b /\
    (b = true <-> keyword_hit lower top ks) /\
    (b = false <-> ~ keyword_hit lower top ks).
Proof.
  exists (scan_walk lower (map lower ks) (os_walk top)).
  split; [apply scan_strs|]. split; [apply scan_walk_hit|].
  rewrite <- scan_walk_hit.
  destruct (scan_walk lower (map lower ks) (os_walk top)); split; congruence.
Qed.

Lemma as_strs_Some (xs : list value) (ks : list string) :
  as_strs xs = Some ks -> xs = map VStr ks.
Proof.
  revert ks. induction xs as [|x xs IH]; intros ks H; simpl in H.
  - now injection H as <-.
  - destruct x; try discriminate.
    destruct (as_strs xs) as [ss|]; [|discriminate].
    injection H as <-. simpl. now rewrite (IH ss).
Qed.

Lemma item_keywords_Some (item : dict) (ks : list string) :
  item_keywords item = Some ks ->
  dict_get item "keywords" (VList []) = VList (map VStr ks).
Proof.
  unfold item_keywords, dict_get.
  destruct (dict_lookup item "keywords") as [[| | | |xs|]|]; try discriminate.
  - intros H. now rewrite (as_strs_Some _ _ H).
  - intros H. now injection H as <-.
Qed.

Lemma no_keywords_item (item : dict) :
  no_keywords item -> item_keywords item = Some [].
Proof. unfold item_keywords. now intros [-> | ->]. Qed.

(** ** The auditor's loop *)

Section AuditorLoop.

Variable lower : string -> string.

Lemma audit_loop_mapM (top : tree) (items : list dict) (acc : list dict) :
  audit_loop lower top items acc =
  (rs <- mapM (audit_item lower top) items ;; Ok (acc ++ rs)).
Proof.
  revert acc. induction items as [|item items IH]; intros acc; cbn [audit_loop mapM bind].
  - now rewrite app_nil_r.
  - unfold audit_item at 1.
    destruct (scan_repo_for_keywords lower top (dict_get item "keywords" (VList [])))
      as [present | x]; cbn [bind]; [|reflexivity].
    rewrite IH. destruct (mapM (audit_item lower top) items); cbn [bind]; [|reflexivity].
    now rewrite <- app_assoc.
Qed.

Lemma audit_result_present (top : tree) (item : dict) :
  dict_lookup (audit_result lower top item) "present" =
  Some (VBool (scan_walk lower (map lower (keywords_of item)) (os_walk top))).
Proof. reflexivity. Qed.

Lemma scan_item_typed (top : tree) (item : dict) :
  keywords_typed item = true ->
  scan_repo_for_keywords lower top (dict_get item "keywords" (VList [])) =
  Ok (scan_walk lower (map lower (keywords_of item)) (os_walk top)).
Proof.
  unfold keywords_typed, keywords_of.
  destruct (item_keywords item) as [ks|] eqn:E; [intros _ | discriminate].
  rewrite (item_keywords_Some _ _ E). apply scan_strs.
Qed.

Lemma audit_repo_typed (top : tree) (items : list dict) :
  forallb keywords_typed items = true ->
  audit_repo lower top items = Ok (map (audit_result lower top) items).
Proof.
  intros H. unfold audit_repo. rewrite audit_loop_mapM.
  assert (E : mapM (audit_item lower top) items = Ok (map (audit_result lower top) items)).
  { induction items as [|item items IH]; [reflexivity|].
    cbn [forallb] in H. apply andb_true_iff in H. destruct H as [Hi Hr].
    cbn [mapM map]. unfold audit_item at 1.
    rewrite (scan_item_typed _ _ Hi). cbn [bind]. now rewrite (IH Hr). }
  now rewrite E.
Qed.

Lemma typed_nth (items : list dict) (i : nat) (item : dict) :
  forallb keywords_typed items = true ->
  nth_error items i = Some item ->
  keywords_typed item = true.
Proof.
  intros H Hn. rewrite forallb_forall in H. apply H. eapply nth_error_In; eauto.
Qed.

End AuditorLoop.

(** C2. For a checklist whose items carry their keywords as a list of
    strings (or carry none), [audit_repo] returns one result per item, in
    the order of the items; the result at position [i] has the id, title,
    description and remediation of the item at position [i] (None when the
    item has no such field), and its [present] is the boolean the scanner
    returns on the item's keywords. *)
Theorem audit_repo_one_result_per_item (lower : string -> string)
        (top : tree) (items : list dict) :
  forallb keywords_typed items = true ->
  exists results : list dict,
    audit_repo lower top items = Ok results /\
    List.length results = List.length items /\
    forall (i : nat) (item : dict),
      nth_error items i = Some item ->
      exists (r : dict) (present : bool),
        nth_error results i = Some r /\
        dict_lookup r "id" = Some (dict_get item "id" VNone) /\
        dict_lookup r "title" = Some (dict_get item "title" VNone) /\
        dict_lookup r "description" = Some (dict_get item "description" VNone) /\
        dict_lookup r "remediation" = Some (dict_get item "remediation" VNone) /\
        dict_lookup r "present" = Some (VBool present) /\
        scan_repo_for_keywords lower top (dict_get item "keywords" (VList []))
          = Ok present /\
        (present = true <-> keyword_hit lower top (keywords_of item)).
Proof.
  intros H. exists (map (audit_result lower top) items).
  split; [now apply audit_repo_typed|]. split; [apply length_map|].
  intros i item Hn.
  exists (audit_result lower top item),
    (scan_walk lower (map lower (keywords_of item)) (os_walk top)).
  split; [now apply map_nth_error|].
  repeat (split; [reflexivity|]).
  split; [apply scan_item_typed; eapply typed_nth; eauto|].
  apply scan_walk_hit.
Qed.

Lemma audit_repo_one_result_per_item_witness :
  forallb keywords_typed [sample_item] = true /\
  exists results : list dict,
    audit_repo ascii_lower sample_repo [sample_item] = Ok results /\
    List.length results = 1.
Proof.
  split; [reflexivity|].
  destruct (audit_repo_one_result_per_item ascii_lower sample_repo [sample_item])
    as (results & E & L & _); [reflexivity|].
  exists results. split; [exact E | exact L].
Defined.

Lemma nothing_to_scan_no_hit (lower : string -> string) (top : tree)
      (ks : list string) :
  nothing_to_scan top -> ~ keyword_hit lower top ks.
Proof.
  intros H (name & data & k & Hr & Hb & _).
  destruct H as [[x ->] | [-> | H]].
  - destruct Hr as (es & E & _). discriminate.
  - destruct Hr as (es & E & Hr). injection E as <-.
    inversion Hr as [? ? Hin _ | ? ? ? ? Hin _]; destruct Hin.
  - apply Hb. exact (H _ Hr).
Qed.

(** C5. Under a root where no file is scanned, the auditor returns, for a
    checklist of well-typed items, one result per item and every result
    has [present] false; nothing is raised. *)
Theorem audit_repo_nothing_to_scan (lower : string -> string)
        (top : tree) (items : list dict) :
  nothing_to_scan top ->
  forallb keywords_typed items = true ->
  exists results : list dict,
    audit_repo lower top items = Ok results /\
    List.length results = List.length items /\
    forall r, In r results -> dict_lookup r "present" = Some (VBool false).
Proof.
  intros Hn Ht. exists (map (audit_result lower top) items).
  split; [now apply audit_repo_typed|]. split; [apply length_map|].
  intros r Hr. apply in_map_iff in Hr. destruct Hr as (item & <- & _).
  rewrite audit_result_present. do 2 f_equal.
  destruct (scan_walk lower (map lower (keywords_of item)) (os_walk top)) eqn:E;
    [|reflexivity].
  apply scan_walk_hit in E. now apply nothing_to_scan_no_hit in E.
Qed.

Lemma binary_only_repo_nothing_to_scan : nothing_to_scan binary_only_repo.
Proof.
  right; right. intros f Hf. apply os_walk_reaches in Hf.
  apply endswith_any_spec.
  cbn in Hf. destruct Hf as [<- | [<- | []]]; reflexivity.
Defined.

Lemma audit_repo_nothing_to_scan_witness :
  nothing_to_scan binary_only_repo /\
  forallb keywords_typed [sample_item] = true /\
  exists results : list dict,
    audit_repo ascii_lower binary_only_repo [sample_item] = Ok results /\
    List.length results = 1 /\
    forall r, In r results -> dict_lookup r "present" = Some (VBool false).
Proof.
  split; [exact binary_only_repo_nothing_to_scan|]. split; [reflexivity|].
  exact (audit_repo_nothing_to_scan ascii_lower binary_only_repo [sample_item]
           binary_only_repo_nothing_to_scan eq_refl).
Defined.

(** C6. An item whose keyword list is empty, or which has no [keywords]
    field, gets [present] false from the auditor under every root. *)
Theorem audit_repo_no_keywords (lower : string -> string) (top : tree)
        (items : list dict) (i : nat) (item : dict) :
  forallb keywords_typed items = true ->
  nth_error items i = Some item ->
  no_keywords item ->
  exists (results : list dict) (r : dict),
    audit_repo lower top items = Ok results /\
    nth_error results i = Some r /\
    dict_lookup r "present" = Some (VBool false).
Proof.
  intros Ht Hn Hk. exists (map (audit_result lower top) items), (audit_result lower top item).
  split; [now apply audit_repo_typed|]. split; [now apply map_nth_error|].
  rewrite audit_result_present. unfold keywords_of.
  rewrite (no_keywords_item _ Hk). do 2 f_equal.
  destruct (scan_walk lower (map lower []) (os_walk top)) eqn:E; [|reflexivity].
  apply scan_walk_hit in E. destruct E as (? & ? & ? & _ & _ & [] & _).
Qed.

Lemma audit_repo_no_keywords_witness :
  forallb keywords_typed [sample_item; item_without_keywords] = true /\
  nth_error [sample_item; item_without_keywords] 1 = Some item_without_keywords /\
  no_keywords item_without_keywords /\
  exists (results : list dict) (r : dict),
    audit_repo ascii_lower sample_repo [sample_item; item_without_keywords]
      = Ok results /\
    nth_error results 1 = Some r /\
    dict_lookup r "present" = Some (VBool false).
Proof.
  split; [reflexivity|]. split; [reflexivity|]. split; [left; reflexivity|].
  apply (audit_repo_no_keywords ascii_lower sample_repo
           [sample_item; item_without_keywords] 1 item_without_keywords);
    [reflexivity | reflexivity | left; reflexivity].
Defined.

(** C10. With the empty string among the keywords the scanner returns
    [true] as soon as one scannable file is reachable from the root,
    whatever the files hold, and the auditor then reports [present] true
    for an item with these keywords.  [str.lower] maps the empty string to
    itself. *)
Theorem scan_empty_keyword (lower : string -> string) (top : tree)
        (ks : list string) :
  lower "" = "" ->
  In "" ks ->
  scannable_file top ->
  scan_repo_for_keywords lower top (VList (map VStr ks)) = Ok true /\
  forall (items : list dict) (i : nat) (item : dict),
    forallb keywords_typed items = true ->
    nth_error items i = Some item ->
    dict_lookup item "keywords" = Some (VList (map VStr ks)) ->
    exists (results : list dict) (r : dict),
      audit_repo lower top items = Ok results /\
      nth_error results i = Some r /\
      dict_lookup r "present" = Some (VBool true).
Proof.
  intros Hl Hin (name & data & Hr & Hb).
  assert (Hhit : keyword_hit lower top ks).
  { exists name, data, "". repeat split; auto.
    rewrite Hl. now exists "", (lower data). }
  assert (Hs : scan_repo_for_keywords lower top (VList (map VStr ks)) = Ok true).
  { rewrite scan_strs. f_equal. now apply scan_walk_hit. }
  split; [exact Hs|].
  intros items i item Ht Hn Hk.
  exists (map (audit_result lower top) items), (audit_result lower top item).
  split; [now apply audit_repo_typed|]. split; [now apply map_nth_error|].
  rewrite audit_result_present. do 2 f_equal.
  pose proof (scan_item_typed lower top item (typed_nth _ _ _ Ht Hn)) as E.
  unfold dict_get in E. rewrite Hk, Hs in E. now injection E as <-.
Qed.

Lemma empty_file_repo_scannable : scannable_file empty_file_repo.
Proof.
  exists "notes.txt", "". split.
  - exists [File "notes.txt" (Ok "")]. split; [reflexivity|].
    apply reach_here; [now left | reflexivity].
  - intros H. apply endswith_any_spec in H. discriminate.
Defined.

Lemma scan_empty_keyword_witness :
  ascii_lower "" = "" /\
  In "" [""] /\
  scannable_file empty_file_repo /\
  scan_repo_for_keywords ascii_lower empty_file_repo (VList (map VStr [""]))
    = Ok true /\
  exists (results : list dict) (r : dict),
    audit_repo ascii_lower empty_file_repo [item_empty_keyword] = Ok results /\
    nth_error results 0 = Some r /\
    dict_lookup r "present" = Some (VBool true).
Proof.
  split; [reflexivity|]. split; [now left|].
  split; [exact empty_file_repo_scannable|].
  destruct (scan_empty_keyword ascii_lower empty_file_repo [""] eq_refl
              (or_introl eq_refl) empty_file_repo_scannable) as [Hs Ha].
  split; [exact Hs|].
  exact (Ha [item_empty_keyword] 0 item_empty_keyword eq_refl eq_refl eq_refl).
Defined.

(** ** The report, line by line *)

Section ReportLines.

Variable repr : value -> string.

Lemma has_required_lookups (r : dict) :
  has_required r = true ->
  exists p i t,
    dict_lookup r "present" = Some p /\
    dict_lookup r "id" = Some i /\
    dict_lookup r "title" = Some t.
Proof.
  unfold has_required, has_key. intros H.
  destruct (dict_lookup r "present") as [p|]; [|discriminate].
  destruct (dict_lookup r "id") as [i|]; [|discriminate].
  destruct (dict_lookup r "title") as [t|]; [|discriminate].
  now exists p, i, t.
Qed.

Lemma render_result_required (r : dict) (lines : list string) (h : list dict) :
  has_required r = true ->
  render_result repr r lines h = (Ok (lines ++ section_lines repr r), h).
Proof.
  intros H. destruct (has_required_lookups r H) as (p & i & t & Hp & Hi & Ht).
  unfold render_result, st_bind, getitem, get, st_ret, dict_getitem.
  rewrite Hp, Hi, Ht.
  unfold section_lines, field_text, present_of, dict_get. rewrite Hp, Hi, Ht.
  destruct (truthy p); cbn [negb]; repeat rewrite <- app_assoc; reflexivity.
Qed.

Lemma render_result_missing (r : dict) (lines : list string) (h : list dict) :
  has_required r = false ->
  exists k, render_result repr r lines h = (Raise (KeyError k), h).
Proof.
  unfold has_required, has_key, render_result, st_bind, getitem, dict_getitem.
  destruct (dict_lookup r "present") as [p|]; [|intros _; now exists "present"].
  destruct (dict_lookup r "id") as [i|]; [|intros _; now exists "id"].
  destruct (dict_lookup r "title") as [t|]; [discriminate | intros _; now exists "title"].
Qed.

Lemma render_results_required (rs : list dict) (lines : list string) (h : list dict) :
  forallb has_required rs = true ->
  render_results repr rs lines h = (Ok (lines ++ flat_map (section_lines repr) rs), h).
Proof.
  revert lines. induction rs as [|r rs IH]; intros lines H; cbn [render_results flat_map].
  - unfold st_ret. now rewrite app_nil_r.
  - cbn [forallb] in H. apply andb_true_iff in H. destruct H as [Hr Hrs].
    unfold st_bind. rewrite (render_result_required _ _ _ Hr), (IH _ Hrs).
    now rewrite app_assoc.
Qed.

Lemma render_results_missing (rs : list dict) (lines : list string) (h : list dict) :
  forallb has_required rs = false ->
  exists k, render_results repr rs lines h = (Raise (KeyError k), h).
Proof.
  revert lines. induction rs as [|r rs IH]; intros lines H; cbn [render_results].
  - discriminate.
  - cbn [forallb] in H. unfold st_bind. destruct (has_required r) eqn:Hr.
    + rewrite (render_result_required _ _ _ Hr). now apply IH.
    + destruct (render_result_missing r lines h Hr) as [k ->]. now exists k.
Qed.

Lemma sum_present_required (rs : list dict) (total : nat) (h : list dict) :
  forallb (fun r => has_key r "present") rs = true ->
  sum_present rs total h =
  (Ok (total + List.length (filter present_of rs)), h).
Proof.
  revert total. induction rs as [|r rs IH]; intros total H; cbn [sum_present filter].
  - unfold st_ret. cbn [List.length]. now rewrite Nat.add_0_r.
  - cbn [forallb] in H. apply andb_true_iff in H. destruct H as [Hr Hrs].
    unfold has_key in Hr.
    destruct (dict_lookup r "present") as [p|] eqn:Hp; [|discriminate].
    assert (Hpo : present_of r = truthy p) by (unfold present_of; now rewrite Hp).
    unfold st_bind, getitem, dict_getitem. rewrite Hp, Hpo, (IH _ Hrs).
    destruct (truthy p); cbn [List.length]; do 2 f_equal; lia.
Qed.

Lemma sum_present_missing (rs : list dict) (total : nat) (h : list dict) :
  forallb (fun r => has_key r "present") rs = false ->
  sum_present rs total h = (Raise (KeyError "present"), h).
Proof.
  revert total. induction rs as [|r rs IH]; intros total H; cbn [sum_present].
  - discriminate.
  - cbn [forallb] in H. unfold has_key in H at 1.
    unfold st_bind, getitem, dict_getitem.
    destruct (dict_lookup r "present") as [p|]; [|reflexivity].
    now apply IH.
Qed.

Lemma required_has_present (rs : list dict) :
  forallb has_required rs = true ->
  forallb (fun r => has_key r "present") rs = true.
Proof.
  rewrite !forallb_forall. intros H r Hr. specialize (H r Hr).
  unfold has_required in H. now destruct (has_key r "present").
Qed.

(** On results that have the subscripted fields the renderer returns the
    lines joined, and hands back the list it was given. *)
Lemma report_required (results : list dict) (title : string) :
  forallb has_required results = true ->
  generate_markdown_report repr results title =
  (Ok (String.concat NL (report_lines repr title results)), results).
Proof.
  intros H. unfold generate_markdown_report, st_bind, results_iter, results_len.
  rewrite (sum_present_required _ _ _ (required_has_present _ H)).
  rewrite (render_results_required _ _ _ H). reflexivity.
Qed.

(** Otherwise it raises a [KeyError], and still hands back the list. *)
Lemma report_missing (results : list dict) (title : string) :
  forallb has_required results = false ->
  exists k, generate_markdown_report repr results title =
            (Raise (KeyError k), results).
Proof.
  intros H. unfold generate_markdown_report, st_bind, results_iter, results_len.
  destruct (forallb (fun r => has_key r "present") results) eqn:Hp.
  - rewrite (sum_present_required _ _ _ Hp).
    destruct (render_results_missing results
                ((([("# " ++ title)%string; ""] ++
                   [("- Total checks: " ++ str_of_nat (List.length results))%string]) ++
                  [("- Checks detected (heuristic pass): " ++
                      str_of_nat (0 + List.length (filter present_of results)))%string]) ++ [""])
                results H) as [k ->].
    now exists k.
  - rewrite (sum_present_missing _ _ _ Hp). now exists "present".
Qed.

Lemma report_Ok_required (results : list dict) (title doc : string) :
  fst (generate_markdown_report repr results title) = Ok doc ->
  forallb has_required results = true.
Proof.
  intros H. destruct (forallb has_required results) eqn:E; [reflexivity|].
  destruct (report_missing results title E) as [k Hk].
  rewrite Hk in H. discriminate.
Qed.

Lemma count_present_le (results : list dict) :
  List.length (filter present_of results) <= List.length results.
Proof. apply filter_length_le. Qed.

End ReportLines.

(** ** Properties of the report *)

(** Every result the auditor builds has the fields the renderer
    subscripts, so the renderer raises nothing on the auditor's output. *)
Lemma audit_repo_results_required (lower : string -> string) (top : tree)
      (items results : list dict) :
  audit_repo lower top items = Ok results ->
  forallb has_required results = true.
Proof.
  unfold audit_repo. rewrite audit_loop_mapM. cbn [app].
  destruct (mapM (audit_item lower top) items) as [rs|x] eqn:E; cbn [bind];
    [|discriminate].
  intros H. injection H as <-.
  revert rs E. induction items as [|item items IH]; intros rs E; cbn [mapM] in E.
  - now injection E as <-.
  - unfold audit_item at 1 in E.
    destruct (scan_repo_for_keywords lower top (dict_get item "keywords" (VList [])))
      as [present|y]; cbn [bind] in E; [|discriminate].
    destruct (mapM (audit_item lower top) items) as [rs'|y]; cbn [bind] in E;
      [|discriminate].
    injection E as <-. cbn [forallb]. now rewrite (IH rs' eq_refl).
Qed.

Lemma report_of_audit (lower : string -> string) (repr : value -> string)
      (top : tree) (items results : list dict) (title : string) :
  audit_repo lower top items = Ok results ->
  generate_markdown_report repr results title =
  (Ok (String.concat NL (report_lines repr title results)), results).
Proof.
  intros H. apply report_required. eapply audit_repo_results_required; eauto.
Qed.

(** C3, as stated, fails: a result without an [id] field makes the
    renderer raise [KeyError], since [r["id"]] is a subscript. *)
Lemma report_without_id_raises :
  fst (generate_markdown_report no_repr [result_without_id] "Compliance Report")
  = Raise (KeyError "id").
Proof. reflexivity. Qed.

(** C3, amended. On results that each have the fields [present], [id] and
    [title], with any values, None included, the renderer returns a
    document and raises nothing; a result without a [description] field
    gets a description line with nothing after the label, and a failing
    result without a [remediation] field gets a remediation line with
    nothing after the label. *)
Theorem report_total_on_required (repr : value -> string)
        (results : list dict) (title : string) :
  forallb has_required results = true ->
  exists lines : list string,
    generate_markdown_report repr results title
      = (Ok (String.concat NL lines), results) /\
    forall r, In r results ->
      (dict_lookup r "description" = None -> In "- Description: " lines) /\
      (dict_lookup r "remediation" = None -> present_of r = false ->
       In "- Remediation: " lines).
Proof.
  intros H. exists (report_lines repr title results).
  split; [now apply report_required|].
  intros r Hr.
  assert (Hsec : forall l, In l (section_lines repr r) ->
                           In l (report_lines repr title results)).
  { intros l Hl. unfold report_lines. apply in_or_app. right.
    apply in_flat_map. now exists r. }
  split.
  - intros Hd. apply Hsec. unfold section_lines, field_text, dict_get.
    rewrite Hd. cbn [py_str]. right; right; left. reflexivity.
  - intros Hm Hp. apply Hsec. unfold section_lines, field_text, dict_get.
    rewrite Hm, Hp. cbn [py_str]. right; right; right; left. reflexivity.
Qed.

Lemma report_total_on_required_witness :
  forallb has_required [result_without_description] = true /\
  exists lines : list string,
    generate_markdown_report no_repr [result_without_description] "Report"
      = (Ok (String.concat NL lines), [result_without_description]) /\
    In "- Description: " lines /\ In "- Remediation: " lines.
Proof.
  split; [reflexivity|].
  destruct (report_total_on_required no_repr [result_without_description]
              "Report" eq_refl) as (lines & E & H).
  exists lines. split; [exact E|].
  destruct (H result_without_description (or_introl eq_refl)) as [Hd Hm].
  split; [exact (Hd eq_refl) | exact (Hm eq_refl eq_refl)].
Defined.

(** C4. In every rendered report the summary block gives, as total, the
    length of the result sequence and, as checks detected, the number of
    results whose [present] field holds; the second never exceeds the
    first. *)
Theorem report_counts (repr : value -> string) (results : list dict)
        (title doc : string) :
  fst (generate_markdown_report repr results title) = Ok doc ->
  exists (total passed : nat) (rest : list string),
    doc = String.concat NL
            ([("# " ++ title)%string; "";
              ("- Total checks: " ++ str_of_nat total)%string;
              ("- Checks detected (heuristic pass): " ++ str_of_nat passed)%string;
              ""] ++ rest) /\
    total = List.length results /\
    passed = List.length (filter present_of results) /\
    passed <= total.
Proof.
  intros H. pose proof (report_Ok_required repr _ _ _ H) as Hreq.
  rewrite (report_required repr _ title Hreq) in H. injection H as <-.
  exists (List.length results), (List.length (filter present_of results)),
    (flat_map (section_lines repr) results).
  split; [reflexivity|]. split; [reflexivity|]. split; [reflexivity|].
  apply count_present_le.
Qed.

Lemma report_counts_witness :
  exists doc : string,
    fst (generate_markdown_report no_repr [result_pass; result_fail] "Report")
      = Ok doc /\
    exists rest : list string,
      doc = String.concat NL
              (["# Report"; ""; "- Total checks: 2";
                "- Checks detected (heuristic pass): 1"; ""] ++ rest).
Proof.
  eexists. split; [reflexivity|].
  destruct (report_counts no_repr [result_pass; result_fail] "Report" _ eq_refl)
    as (total & passed & rest & E & -> & -> & _).
  exists rest. exact E.
Defined.

(** C8. A rendered report is the heading and summary followed by one
    section per result, in the order of the results.  A section is a
    header made of the id and the title, a status line saying PASS when
    [present] holds and FAIL otherwise, a description line, then a
    remediation line when [present] does not hold, then an empty line; a
    line starting with the remediation label is in the section exactly
    when [present] does not hold. *)
Theorem report_sections (repr : value -> string) (results : list dict)
        (title doc : string) :
  fst (generate_markdown_report repr results title) = Ok doc ->
  doc = String.concat NL
          (head_lines title results ++ flat_map (section_lines repr) results) /\
  forall r, In r results ->
    exists (i t : value) (tail : list string),
      dict_lookup r "id" = Some i /\
      dict_lookup r "title" = Some t /\
      section_lines repr r =
        ("## " ++ py_str repr i ++ " - " ++ py_str repr t ++ "  ")%string ::
        ("- Status: **" ++ (if present_of r then "PASS" else "FAIL") ++ "**")%string ::
        ("- Description: " ++ field_text repr r "description")%string ::
        tail /\
      tail = (if present_of r then [""]
              else [("- Remediation: " ++ field_text repr r "remediation")%string; ""]) /\
      ((exists line, In line (section_lines repr r) /\
                     startswith line "- Remediation: " = true)
       <-> present_of r = false).
Proof.
  intros H. pose proof (report_Ok_required repr _ _ _ H) as Hreq.
  rewrite (report_required repr _ title Hreq) in H. injection H as <-.
  split; [reflexivity|].
  intros r Hr. rewrite forallb_forall in Hreq.
  destruct (has_required_lookups r (Hreq r Hr)) as (p & i & t & Hp & Hi & Ht).
  exists i, t,
    (if present_of r then [""]
     else [("- Remediation: " ++ field_text repr r "remediation")%string; ""]).
  split; [exact Hi|]. split; [exact Ht|].
  assert (Hsec : section_lines repr r =
    ("## " ++ py_str repr i ++ " - " ++ py_str repr t ++ "  ")%string ::
    ("- Status: **" ++ (if present_of r then "PASS" else "FAIL") ++ "**")%string ::
    ("- Description: " ++ field_text repr r "description")%string ::
    (if present_of r then [""]
     else [("- Remediation: " ++ field_text repr r "remediation")%string; ""])).
  { unfold section_lines. unfold field_text at 1 2. unfold dict_get.
    rewrite Hi, Ht. now destruct (present_of r). }
  split; [exact Hsec|]. split; [reflexivity|].
  rewrite Hsec. destruct (present_of r); split.
  - intros (line & Hin & Hs).
    destruct Hin as [<- | [<- | [<- | [<- | []]]]]; simpl in Hs; discriminate.
  - discriminate.
  - reflexivity.
  - intros _. exists ("- Remediation: " ++ field_text repr r "remediation")%string.
    split; [right; right; right; now left | reflexivity].
Qed.

Lemma report_sections_witness :
  exists doc : string,
    fst (generate_markdown_report no_repr [result_pass; result_fail] "Report")
      = Ok doc /\
    doc = String.concat NL
            (head_lines "Report" [result_pass; result_fail] ++
             section_lines no_repr result_pass ++
             section_lines no_repr result_fail).
Proof.
  eexists. split; [reflexivity|].
  destruct (report_sections no_repr [result_pass; result_fail] "Report" _ eq_refl)
    as [E _].
  rewrite E. cbn [flat_map]. now rewrite app_nil_r.
Defined.

(** C9. Rendering hands back the result sequence as it received it, and
    a second rendering of the sequence handed back, with the same title,
    gives the same outcome as the first. *)
Theorem report_deterministic (repr : value -> string) (results : list dict)
        (title : string) :
  let first := generate_markdown_report repr results title in
  let second := generate_markdown_report repr (snd first) title in
  snd first = results /\ snd second = results /\ fst second = fst first.
Proof.
  cbv zeta. destruct (forallb has_required results) eqn:H.
  - rewrite (report_required repr _ title H). cbn [fst snd].
    rewrite (report_required repr _ title H). cbn [fst snd]. auto.
  - destruct (report_missing repr results title H) as [k E].
    rewrite E. cbn [fst snd]. rewrite E. cbn [fst snd]. auto.
Qed.

(** ** Properties of the loader *)

Lemma load_checklists_not_a_directory (path : checklist_dir) :
  isdir path = false -> load_checklists path = Ok [].
Proof. unfold load_checklists. now intros ->. Qed.

Lemma load_checklists_listed (path : checklist_dir) (fnames : list string) :
  isdir path = true ->
  listdir path = Ok fnames ->
  load_checklists path = Ok (load_files path fnames []).
Proof. unfold load_checklists. now intros -> ->. Qed.

Lemma load_files_skips_failing (path : checklist_dir) (before after : list string)
      (fname : string) (checklists : list value) :
  fails_to_load path fname ->
  load_files path (before ++ fname :: after) checklists =
  load_files path (before ++ after) checklists.
Proof.
  intros [x Hx]. revert checklists.
  induction before as [|f before IH]; intros checklists; cbn [app load_files].
  - rewrite Hx. now destruct (negb (endswith fname ".json")).
  - destruct (negb (endswith f ".json")); [apply IH|].
    destruct (items <- load_json path f;; py_iter items); apply IH.
Qed.

Lemma load_files_none_valid (path : checklist_dir) (fnames : list string)
      (checklists : list value) :
  (forall f, In f fnames -> endswith f ".json" = true -> fails_to_load path f) ->
  load_files path fnames checklists = checklists.
Proof.
  induction fnames as [|f fnames IH]; intros H; cbn [load_files]; [reflexivity|].
  assert (IH' : load_files path fnames checklists = checklists).
  { apply IH. intros g Hg. apply H. now right. }
  destruct (endswith f ".json") eqn:E; cbn [negb]; [|exact IH'].
  destruct (H f (or_introl eq_refl) E) as [x ->]. exact IH'.
Qed.

Lemma load_checklists_none_valid (path : checklist_dir) (fnames : list string) :
  listdir path = Ok fnames ->
  (forall f, In f fnames -> endswith f ".json" = true -> fails_to_load path f) ->
  load_checklists path = Ok [].
Proof.
  intros Hl H. unfold load_checklists. destruct (isdir path); cbn [negb]; [|reflexivity].
  rewrite Hl. cbn [bind]. now rewrite load_files_none_valid.
Qed.

(** A file that fails to load adds nothing; the files around it are loaded
    as if it were not there. *)
Lemma load_checklists_skips_failing (path : checklist_dir)
      (before after : list string) (fname : string) :
  isdir path = true ->
  listdir path = Ok (before ++ fname :: after) ->
  fails_to_load path fname ->
  load_checklists path = Ok (load_files path (before ++ after) []).
Proof.
  intros Hd Hl Hf. rewrite (load_checklists_listed _ _ Hd Hl).
  now rewrite load_files_skips_failing.
Qed.

Example load_checklists_sample :
  load_checklists sample_dir = Ok [VDict sample_item; VDict item_without_keywords].
Proof. reflexivity. Qed.

(** C7. The loader does fail on a directory that exists and cannot be
    listed: [os.listdir] is outside the [try], and what it raises goes
    through. *)
Theorem load_checklists_unlistable_raises :
  load_checklists unlistable_dir = Raise OSError.
Proof. reflexivity. Qed.

(** ** The scenarios of the specification *)

Example scenario_license_found :
  audit_repo ascii_lower sample_repo [sample_item] = Ok [result_pass].
Proof. reflexivity. Qed.

Example scenario_license_found_report :
  fst (generate_markdown_report no_repr [result_pass] "Report") =
  Ok (String.concat NL
        ["# Report"; ""; "- Total checks: 1";
         "- Checks detected (heuristic pass): 1"; "";
         "## C1 - Has license  "; "- Status: **PASS**";
         "- Description: None"; ""]).
Proof. reflexivity. Qed.

Example scenario_no_files :
  audit_repo ascii_lower (Ok []) [sample_item] = Ok [result_fail].
Proof. reflexivity. Qed.

Example scenario_no_files_report :
  fst (generate_markdown_report no_repr [result_fail] "Report") =
  Ok (String.concat NL
        ["# Report"; ""; "- Total checks: 1";
         "- Checks detected (heuristic pass): 0"; "";
         "## C1 - Has license  "; "- Status: **FAIL**";
         "- Description: None"; "- Remediation: Add LICENSE file"; ""]).
Proof. reflexivity. Qed.

Example scenario_encryption_at_rest :
  scan_repo_for_keywords ascii_lower
    (Ok [Dir "conf" false (Ok [File "policy.yml" (Ok "policy: Encryption-At-Rest enabled")])])
    (VList [VStr "encryption-at-rest"]) = Ok true.
Proof. reflexivity. Qed.

Example scenario_null_keywords_raise :
  audit_repo ascii_lower sample_repo [[("id", VStr "C1"); ("keywords", VNone)]]
  = Raise TypeError.
Proof. reflexivity. Qed.

(** * Further properties of the code *)

(** ** The scanner on any keywords value *)

Section ScannerValues.

Variable lower : string -> string.

Lemma mapM_str_lower_strs (ks : list string) :
  mapM (str_lower lower) (map VStr ks) = Ok (map lower ks).
Proof.
  induction ks as [|k ks IH]; [reflexivity|].
  cbn [map mapM str_lower bind]. now rewrite IH.
Qed.

Lemma mapM_str_lower_not_strs (xs : list value) :
  as_strs xs = None -> mapM (str_lower lower) xs = Raise AttributeError.
Proof.
  induction xs as [|x xs IH]; [discriminate|].
  cbn [as_strs mapM]. destruct x; try (intros _; reflexivity).
  cbn [str_lower bind]. destruct (as_strs xs); [discriminate|].
  intros _. now rewrite IH.
Qed.

Lemma lower_keywords_Some (v : value) (ks : list string) :
  keyword_strings v = Some ks ->
  lower_keywords lower v = Ok (map lower ks).
Proof.
  unfold lower_keywords. destruct v as [| | |s|xs|kvs]; cbn [keyword_strings py_iter bind];
    try discriminate.
  - intros H. injection H as <-. rewrite <- mapM_str_lower_strs.
    now rewrite map_map.
  - intros H. rewrite (as_strs_Some _ _ H). apply mapM_str_lower_strs.
  - intros H. injection H as <-. rewrite <- mapM_str_lower_strs.
    now rewrite map_map.
Qed.

Lemma lower_keywords_None (v : value) :
  keyword_strings v = None ->
  lower_keywords lower v =
  Raise (match v with VList _ => AttributeError | _ => TypeError end).
Proof.
  unfold lower_keywords. destruct v as [| | |s|xs|kvs]; cbn [keyword_strings py_iter bind];
    try reflexivity; try discriminate.
  apply mapM_str_lower_not_strs.
Qed.

Lemma scan_keyword_strings (top : tree) (v : value) (ks : list string) :
  keyword_strings v = Some ks ->
  scan_repo_for_keywords lower top v =
  Ok (scan_walk lower (map lower ks) (os_walk top)).
Proof.
  intros H. unfold scan_repo_for_keywords. now rewrite (lower_keywords_Some _ _ H).
Qed.

Lemma scan_not_strings (top : tree) (v : value) :
  keyword_strings v = None ->
  scan_repo_for_keywords lower top v =
  Raise (match v with VList _ => AttributeError | _ => TypeError end).
Proof.
  intros H. unfold scan_repo_for_keywords. now rewrite (lower_keywords_None _ H).
Qed.

Lemma scan_walk_app (ks1 ks2 : list string) (w : list (list entry * list entry)) :
  scan_walk lower (ks1 ++ ks2) w = scan_walk lower ks1 w || scan_walk lower ks2 w.
Proof.
  apply eq_true_iff_eq. rewrite orb_true_iff, !scan_walk_true. unfold file_hit.
  split.
  - intros (f & Hin & Hex & text & Hr & Hs).
    apply scan_data_true in Hs. destruct Hs as (k & Hk & Hc).
    apply in_app_or in Hk. destruct Hk as [Hk | Hk]; [left | right];
      exists f; (split; [exact Hin | split; [exact Hex | exists text; split; [exact Hr|]]]);
      apply scan_data_true; eauto.
  - intros [(f & Hin & Hex & text & Hr & Hs) | (f & Hin & Hex & text & Hr & Hs)];
      apply scan_data_true in Hs; destruct Hs as (k & Hk & Hc);
      exists f; (split; [exact Hin | split; [exact Hex | exists text; split; [exact Hr|]]]);
      apply scan_data_true; exists k; (split; [apply in_or_app; auto | exact Hc]).
Qed.

End ScannerValues.

(** X1. The scanner raises on exactly the keywords values that are not an
    iterable of strings, and then whatever the root is, before any file is
    looked at: [TypeError] for None, a boolean or a number, [AttributeError]
    for a list that holds something other than a string. *)
Theorem scan_raises_iff (lower : string -> string) (top : tree) (keywords : value) :
  ((exists e, scan_repo_for_keywords lower top keywords = Raise e) <->
   keyword_strings keywords = None) /\
  (forall e, scan_repo_for_keywords lower top keywords = Raise e ->
     e = match keywords with VList _ => AttributeError | _ => TypeError end /\
     forall top', scan_repo_for_keywords lower top' keywords = Raise e).
Proof.
  destruct (keyword_strings keywords) as [ks|] eqn:E.
  - rewrite (scan_keyword_strings lower top _ _ E). split.
    + split; [intros [e H]; discriminate | discriminate].
    + intros e H. discriminate.
  - rewrite (scan_not_strings lower top _ E). split.
    + split; [reflexivity | intros _; eauto].
    + intros e H. injection H as <-. split; [reflexivity|].
      intros top'. apply scan_not_strings. exact E.
Qed.



(** X3. Scanning for two lists of keywords together is scanning for each
    and taking the disjunction. *)
Theorem scan_keywords_union (lower : string -> string) (top : tree)
        (ks1 ks2 : list string) :
  exists b1 b2 : bool,
    scan_repo_for_keywords lower top (VList (map VStr ks1)) = Ok b1 /\
    scan_repo_for_keywords lower top (VList (map VStr ks2)) = Ok b2 /\
    scan_repo_for_keywords lower top (VList (map VStr (ks1 ++ ks2))) = Ok (b1 || b2).
Proof.
  exists (scan_walk lower (map lower ks1) (os_walk top)),
    (scan_walk lower (map lower ks2) (os_walk top)).
  rewrite !scan_strs. repeat split.
  now rewrite map_app, scan_walk_app.
Qed.

(** X4. The answer depends on the root only through the files the scanner
    reads: two roots that give the same readable files with a name that is
    not excluded get the same answer, whatever else they hold and however
    the files are spread over directories. *)
Theorem scan_same_scannable (lower : string -> string) (t1 t2 : tree)
        (ks : list string) :
  same_scannable t1 t2 ->
  scan_repo_for_keywords lower t1 (VList (map VStr ks)) =
  scan_repo_for_keywords lower t2 (VList (map VStr ks)).
Proof.
  intros H. rewrite !scan_strs. f_equal. apply eq_true_iff_eq.
  rewrite !scan_walk_hit. unfold keyword_hit.
  split; intros (name & data & k & Hr & Hb & Hk & Ho);
    exists name, data, k; (split; [apply (H name data Hb); exact Hr | auto]).
Qed.

Lemma flat_nested_same_scannable : same_scannable flat_repo nested_repo.
Proof.
  intros name data Hb. rewrite <- !os_walk_reaches. cbn. split.
  - intros [H | [H | []]]; injection H as <- <-; tauto.
  - intros [H | [H | [H | [H | []]]]]; try discriminate.
    + injection H as <- <-. tauto.
    + injection H as <- <-. exfalso. apply Hb. apply endswith_any_spec. reflexivity.
    + injection H as <- <-. tauto.
Defined.

Lemma scan_same_scannable_witness :
  same_scannable flat_repo nested_repo /\
  scan_repo_for_keywords ascii_lower flat_repo (VList (map VStr ["BETA"])) =
  scan_repo_for_keywords ascii_lower nested_repo (VList (map VStr ["BETA"])).
Proof.
  split; [exact flat_nested_same_scannable|].
  exact (scan_same_scannable ascii_lower flat_repo nested_repo ["BETA"]
           flat_nested_same_scannable).
Defined.

(** ** The auditor on any checklist of dicts *)

Lemma mapM_app {A B : Type} (f : A -> res B) (xs ys : list A) :
  mapM f (xs ++ ys) =
  (a <- mapM f xs ;; b <- mapM f ys ;; Ok (a ++ b)).
Proof.
  induction xs as [|x xs IH]; cbn [app mapM bind].
  - now destruct (mapM f ys).
  - destruct (f x) as [y|e]; cbn [bind]; [|reflexivity].
    rewrite IH. destruct (mapM f xs) as [a|e]; cbn [bind]; [|reflexivity].
    now destruct (mapM f ys).
Qed.

Lemma mapM_Ok_Forall2 {A B : Type} (f : A -> res B) (xs : list A) (ys : list B) :
  mapM f xs = Ok ys -> Forall2 (fun x y => f x = Ok y) xs ys.
Proof.
  revert ys. induction xs as [|x xs IH]; intros ys H; cbn [mapM] in H.
  - injection H as <-. constructor.
  - destruct (f x) as [y|e] eqn:E; cbn [bind] in H; [|discriminate].
    destruct (mapM f xs) as [ys'|e]; cbn [bind] in H; [|discriminate].
    injection H as <-. constructor; [exact E | now apply IH].
Qed.

Lemma mapM_Raise_iff {A B : Type} (f : A -> res B) (xs : list A) :
  (exists e, mapM f xs = Raise e) <-> exists x e, In x xs /\ f x = Raise e.
Proof.
  induction xs as [|x xs IH]; cbn [mapM].
  - split; [intros [e H]; discriminate | intros (x & e & [] & _)].
  - destruct (f x) as [y|e] eqn:E; cbn [bind].
    + destruct (mapM f xs) as [ys|e'] eqn:Em; cbn [bind].
      * split; [intros [e H]; discriminate|].
        intros (x' & e & [<- | Hin] & H); [congruence|].
        destruct IH as [_ IH]. destruct IH as [e0 H0]; [eauto | discriminate].
      * split; [|eauto]. intros _.
        destruct IH as [IH _]. destruct IH as (x' & e0 & Hin & H0); [eauto|].
        exists x', e0. split; [now right | exact H0].
    + split; [|eauto]. intros _. exists x, e. split; [now left | exact E].
Qed.

Lemma audit_repo_mapM (lower : string -> string) (top : tree) (items : list dict) :
  audit_repo lower top items = mapM (audit_item lower top) items.
Proof.
  unfold audit_repo. rewrite audit_loop_mapM.
  now destruct (mapM (audit_item lower top) items).
Qed.

Lemma audit_item_Ok (lower : string -> string) (top : tree) (item r : dict) :
  audit_item lower top item = Ok r ->
  exists present : bool,
    scan_repo_for_keywords lower top (dict_get item "keywords" (VList [])) = Ok present /\
    r = [("id", dict_get item "id" VNone);
         ("title", dict_get item "title" VNone);
         ("description", dict_get item "description" VNone);
         ("present", VBool present);
         ("remediation", dict_get item "remediation" VNone)].
Proof.
  unfold audit_item.
  destruct (scan_repo_for_keywords lower top (dict_get item "keywords" (VList [])))
    as [present|e]; cbn [bind]; [|discriminate].
  intros H. injection H as <-. now exists present.
Qed.

(** X5. Whatever the items hold, every result the auditor returns has
    exactly the keys id, title, description, present and remediation, in
    this order, and a boolean under [present]; other fields of an item do
    not get into its result. *)
Theorem audit_repo_result_shape (lower : string -> string) (top : tree)
        (items results : list dict) :
  audit_repo lower top items = Ok results ->
  List.length results = List.length items /\
  forall r, In r results ->
    map fst r = result_keys /\
    exists b : bool, dict_lookup r "present" = Some (VBool b).
Proof.
  rewrite audit_repo_mapM. intros H. apply mapM_Ok_Forall2 in H. split.
  - symmetry. eapply Forall2_length; eauto.
  - intros r Hr.
    induction H as [|item r' items' results' Hi _ IH]; [destruct Hr|].
    destruct Hr as [<- | Hr]; [|now apply IH].
    apply audit_item_Ok in Hi. destruct Hi as (present & _ & ->).
    split; [reflexivity | now exists present].
Qed.

Lemma audit_repo_result_shape_witness :
  audit_repo ascii_lower sample_repo [sample_item] = Ok [result_pass] /\
  List.length [result_pass] = List.length [sample_item] /\
  forall r, In r [result_pass] ->
    map fst r = result_keys /\
    exists b : bool, dict_lookup r "present" = Some (VBool b).
Proof.
  split; [reflexivity|].
  exact (audit_repo_result_shape ascii_lower sample_repo [sample_item] [result_pass] eq_refl).
Defined.

(** X6. Auditing a checklist made of two parts is auditing the first part,
    then the second, and putting the results one after the other; an
    exception in the first part is the one that shows. *)
Theorem audit_repo_app (lower : string -> string) (top : tree)
        (items1 items2 : list dict) :
  audit_repo lower top (items1 ++ items2) =
  (r1 <- audit_repo lower top items1 ;;
   r2 <- audit_repo lower top items2 ;;
   Ok (r1 ++ r2)).
Proof. rewrite !audit_repo_mapM. apply mapM_app. Qed.

(** X7. The auditor raises exactly when the [keywords] of some item are
    not an iterable of strings (None, a number, a list holding something
    other than a string), and it then returns no result at all. *)
Theorem audit_repo_raises_iff (lower : string -> string) (top : tree)
        (items : list dict) :
  (exists e, audit_repo lower top items = Raise e) <->
  (exists item, In item items /\
     keyword_strings (dict_get item "keywords" (VList [])) = None).
Proof.
  rewrite audit_repo_mapM, mapM_Raise_iff. split.
  - intros (item & e & Hin & H). exists item. split; [exact Hin|].
    destruct (keyword_strings (dict_get item "keywords" (VList []))) as [ks|] eqn:E;
      [|reflexivity].
    unfold audit_item in H. rewrite (scan_keyword_strings lower top _ _ E) in H.
    discriminate.
  - intros (item & Hin & E). exists item. eexists. split; [exact Hin|].
    unfold audit_item. rewrite (scan_not_strings lower top _ E). reflexivity.
Qed.

(** ** The report of an audit *)

Lemma audit_item_present (lower : string -> string) (top : tree) (item r : dict) :
  audit_item lower top item = Ok r ->
  has_required r = true /\
  scan_repo_for_keywords lower top (dict_get item "keywords" (VList []))
    = Ok (present_of r) /\
  dict_lookup r "description" = Some (dict_get item "description" VNone).
Proof.
  intros H. apply audit_item_Ok in H. destruct H as (present & Hs & ->).
  split; [reflexivity|]. split; [exact Hs | reflexivity].
Qed.

Lemma audit_detected_count (lower : string -> string) (top : tree)
      (items results : list dict) :
  Forall2 (fun item r => audit_item lower top item = Ok r) items results ->
  List.length (filter present_of results) =
  List.length (filter (item_detected lower top) items).
Proof.
  induction 1 as [|item r items results Hi _ IH]; [reflexivity|].
  apply audit_item_present in Hi. destruct Hi as (_ & Hs & _).
  cbn [filter]. unfold item_detected at 1. rewrite Hs.
  destruct (present_of r); cbn [List.length]; now rewrite IH.
Qed.

(** X8. The renderer never raises on what the auditor returns: the report
    of an audit is a document, with one check counted per checklist item
    and, as checks detected, the number of items the scanner answers true
    for. *)
Theorem report_of_audit_counts (lower : string -> string) (repr : value -> string)
        (top : tree) (items results : list dict) (title : string) :
  audit_repo lower top items = Ok results ->
  exists rest : list string,
    generate_markdown_report repr results title =
    (Ok (String.concat NL
           ([("# " ++ title)%string; "";
             ("- Total checks: " ++ str_of_nat (List.length items))%string;
             ("- Checks detected (heuristic pass): " ++
                str_of_nat (List.length (filter (item_detected lower top) items)))%string;
             ""] ++ rest)),
     results).
Proof.
  intros H. rewrite (report_of_audit lower repr top items results title H).
  exists (flat_map (section_lines repr) results).
  rewrite audit_repo_mapM in H. apply mapM_Ok_Forall2 in H.
  unfold report_lines, head_lines.
  rewrite (audit_detected_count _ _ _ _ H), (Forall2_length H). reflexivity.
Qed.

Lemma report_of_audit_counts_witness :
  audit_repo ascii_lower sample_repo [sample_item; item_without_keywords]
    = Ok [result_pass; result_no_policy] /\
  exists rest : list string,
    fst (generate_markdown_report no_repr [result_pass; result_no_policy] "Report") =
    Ok (String.concat NL
          (["# Report"; ""; "- Total checks: 2";
            "- Checks detected (heuristic pass): 1"; ""] ++ rest)).
Proof.
  split; [reflexivity|].
  destruct (report_of_audit_counts ascii_lower no_repr sample_repo
              [sample_item; item_without_keywords] [result_pass; result_no_policy]
              "Report" eq_refl) as [rest E].
  exists rest. rewrite E. reflexivity.
Defined.

(** X9. A checklist item without a description (or remediation) gets the
    word None in the report of its audit: the auditor stores
    [item.get(field)], which is None, and the renderer's empty default only
    applies to a result without the field. *)
Theorem report_of_audit_missing_field (lower : string -> string)
        (repr : value -> string) (top : tree) (items results : list dict)
        (item : dict) (title : string) :
  audit_repo lower top items = Ok results ->
  In item items ->
  exists lines : list string,
    generate_markdown_report repr results title
      = (Ok (String.concat NL lines), results) /\
    (dict_lookup item "description" = None -> In "- Description: None" lines) /\
    (dict_lookup item "remediation" = None -> item_detected lower top item = false ->
     In "- Remediation: None" lines).
Proof.
  intros H Hin. exists (report_lines repr title results).
  split; [eapply report_of_audit; eauto|].
  rewrite audit_repo_mapM in H. apply mapM_Ok_Forall2 in H.
  assert (Hr : exists r, In r results /\ audit_item lower top item = Ok r).
  { induction H as [|item' r items' results' Hi _ IH]; [destruct Hin|].
    destruct Hin as [-> | Hin].
    - exists r. split; [now left | exact Hi].
    - destruct (IH Hin) as (r0 & Hr0 & H0). exists r0. split; [now right | exact H0]. }
  destruct Hr as (r & Hr & Hi).
  assert (Hsec : forall l, In l (section_lines repr r) ->
                           In l (report_lines repr title results)).
  { intros l Hl. unfold report_lines. apply in_or_app. right.
    apply in_flat_map. now exists r. }
  apply audit_item_Ok in Hi. destruct Hi as (present & Hs & Er).
  assert (Hfd : field_text repr r "description" =
                py_str repr (dict_get item "description" VNone)) by now subst r.
  assert (Hfm : field_text repr r "remediation" =
                py_str repr (dict_get item "remediation" VNone)) by now subst r.
  assert (Hp : present_of r = present) by now subst r.
  clear Er. split.
  - intros Hd. apply Hsec. unfold section_lines. rewrite Hfd.
    unfold dict_get. rewrite Hd. cbn [py_str app]. right; right; left. reflexivity.
  - intros Hm Hdet. apply Hsec. unfold item_detected in Hdet. rewrite Hs in Hdet.
    unfold section_lines. rewrite Hfm, Hp, Hdet.
    unfold dict_get. rewrite Hm. cbn [py_str app].
    right; right; right; left. reflexivity.
Qed.

Lemma report_of_audit_missing_field_witness :
  audit_repo ascii_lower sample_repo [sample_item] = Ok [result_pass] /\
  In sample_item [sample_item] /\
  dict_lookup sample_item "description" = None /\
  exists lines : list string,
    generate_markdown_report no_repr [result_pass] "Report"
      = (Ok (String.concat NL lines), [result_pass]) /\
    In "- Description: None" lines.
Proof.
  split; [reflexivity|]. split; [now left|]. split; [reflexivity|].
  destruct (report_of_audit_missing_field ascii_lower no_repr sample_repo
              [sample_item] [result_pass] sample_item "Report" eq_refl
              (or_introl eq_refl)) as (lines & E & Hd & _).
  exists lines. split; [exact E | exact (Hd eq_refl)].
Defined.

(** ** When the renderer raises *)

(** X10. The renderer returns a document exactly when every result has
    the fields [present], [id] and [title]; otherwise it raises. *)
Theorem report_Ok_iff (repr : value -> string) (results : list dict)
        (title : string) :
  (exists doc, fst (generate_markdown_report repr results title) = Ok doc) <->
  forallb has_required results = true.
Proof.
  split.
  - intros [doc H]. eapply report_Ok_required; eauto.
  - intros H. rewrite (report_required repr _ title H). cbn [fst]. eauto.
Qed.

Lemma render_result_missing_key (repr : value -> string) (r : dict)
      (lines : list string) (h : list dict) :
  has_key r "present" = true ->
  has_required r = false ->
  render_result repr r lines h =
  (Raise (KeyError (if has_key r "id" then "title" else "id")), h).
Proof.
  unfold has_required, has_key, render_result, st_bind, getitem, dict_getitem.
  destruct (dict_lookup r "present") as [p|]; [intros _ | discriminate].
  destruct (dict_lookup r "id") as [i|]; [|reflexivity].
  destruct (dict_lookup r "title") as [t|]; [discriminate | reflexivity].
Qed.

Lemma render_results_app (repr : value -> string) (pre rest : list dict)
      (lines : list string) (h : list dict) :
  forallb has_required pre = true ->
  render_results repr (pre ++ rest) lines h =
  render_results repr rest (lines ++ flat_map (section_lines repr) pre) h.
Proof.
  revert lines. induction pre as [|r pre IH]; intros lines H; cbn [app flat_map].
  - now rewrite app_nil_r.
  - cbn [forallb] in H. apply andb_true_iff in H. destruct H as [Hr Hpre].
    cbn [render_results]. unfold st_bind at 1.
    rewrite (render_result_required repr _ _ _ Hr), (IH _ Hpre).
    now rewrite app_assoc.
Qed.

(** X11. Which [KeyError] the renderer raises: the running total is taken
    first, so a result without [present], wherever it is, gives
    [KeyError('present')]; when all results have [present], the first
    result that lacks [id] or [title] decides, [id] before [title]. *)
Theorem report_key_error (repr : value -> string) (pre : list dict) (r : dict)
        (post : list dict) (title : string) :
  forallb has_required pre = true ->
  has_required r = false ->
  fst (generate_markdown_report repr (pre ++ r :: post) title) =
  Raise (KeyError
           (if forallb (fun x => has_key x "present") (r :: post)
            then (if has_key r "id" then "title" else "id")
            else "present")).
Proof.
  intros Hpre Hr.
  assert (Hall : forallb (fun x => has_key x "present") (pre ++ r :: post) =
                 forallb (fun x => has_key x "present") (r :: post)).
  { rewrite forallb_app, (required_has_present _ Hpre). reflexivity. }
  unfold generate_markdown_report, st_bind, results_iter, results_len.
  destruct (forallb (fun x => has_key x "present") (r :: post)) eqn:Hp.
  - rewrite (sum_present_required _ _ _ Hall).
    rewrite (render_results_app repr _ _ _ _ Hpre).
    cbn [render_results]. unfold st_bind.
    cbn [forallb] in Hp. apply andb_true_iff in Hp. destruct Hp as [Hp _].
    rewrite (render_result_missing_key repr _ _ _ Hp Hr). reflexivity.
  - rewrite (sum_present_missing _ _ _ Hall). reflexivity.
Qed.

Lemma report_key_error_witness :
  forallb has_required [result_pass] = true /\
  has_required result_without_id = false /\
  fst (generate_markdown_report no_repr
         ([result_pass] ++ result_without_id :: [[("id", VStr "C9")]]) "Report") =
  Raise (KeyError "present").
Proof.
  split; [reflexivity|]. split; [reflexivity|].
  exact (report_key_error no_repr [result_pass] result_without_id
           [[("id", VStr "C9")]] "Report" eq_refl eq_refl).
Defined.

(** ** The loader on a directory it can list *)

Lemma load_files_flat_map (path : checklist_dir) (fnames : list string)
      (checklists : list value) :
  load_files path fnames checklists =
  checklists ++ flat_map (file_items path) fnames.
Proof.
  revert checklists. induction fnames as [|f fnames IH]; intros checklists;
    cbn [load_files flat_map].
  - now rewrite app_nil_r.
  - unfold file_items at 1. destruct (endswith f ".json"); cbn [negb app].
    + destruct (items <- load_json path f;; py_iter items) as [xs|e].
      * rewrite IH. now rewrite app_assoc.
      * apply IH.
    + apply IH.
Qed.



(** X13. The loader reads only the listed files whose name ends in
    [.json]: two directories with the same listing, whose [.json] files
    load alike, give the same checklist, whatever their other files hold. *)
Theorem load_checklists_only_json (p1 p2 : checklist_dir) :
  isdir p1 = isdir p2 ->
  listdir p1 = listdir p2 ->
  (forall fnames f, listdir p1 = Ok fnames -> In f fnames ->
     endswith f ".json" = true -> load_json p1 f = load_json p2 f) ->
  load_checklists p1 = load_checklists p2.
Proof.
  intros Hd Hl H. unfold load_checklists. rewrite <- Hd, <- Hl.
  destruct (isdir p1); cbn [negb]; [|reflexivity].
  destruct (listdir p1) as [fnames|e]; cbn [bind]; [|reflexivity].
  f_equal. specialize (H fnames).
  rewrite !load_files_flat_map. f_equal.
  assert (Hf : forall f, In f fnames -> file_items p1 f = file_items p2 f).
  { intros f Hin. unfold file_items. destruct (endswith f ".json") eqn:E; [|reflexivity].
    now rewrite (H f eq_refl Hin E). }
  rewrite !flat_map_concat_map. f_equal. now apply map_ext_in.
Qed.

Lemma load_checklists_only_json_witness :
  load_json mixed_dir "notes.txt" <> load_json mixed_dir' "notes.txt" /\
  load_checklists mixed_dir = load_checklists mixed_dir'.
Proof.
  split; [discriminate|].
  apply (load_checklists_only_json mixed_dir mixed_dir'); [reflexivity | reflexivity |].
  intros fnames f Hl Hin E. injection Hl as <-.
  destruct Hin as [<- | [<- | [<- | []]]]; [discriminate | reflexivity | reflexivity].
Defined.

(** X14. A directory that is not there, or in which no file whose name
    ends in [.json] loads, gives the empty checklist. *)
Theorem load_checklists_nothing_loads (path : checklist_dir) (fnames : list string) :
  (isdir path = false \/ listdir path = Ok fnames) ->
  (forall f, In f fnames -> endswith f ".json" = true -> fails_to_load path f) ->
  load_checklists path = Ok [].
Proof.
  intros [Hd | Hl] H.
  - now apply load_checklists_not_a_directory.
  - eapply load_checklists_none_valid; eauto.
Qed.

Lemma broken_dir_fails (f : string) :
  In f ["broken.json"; "README.md"; "number.json"] ->
  endswith f ".json" = true -> fails_to_load broken_dir f.
Proof.
  intros [<- | [<- | [<- | []]]] E; try discriminate.
  - now exists ValueError.
  - now exists TypeError.
Defined.

Lemma load_checklists_nothing_loads_witness :
  (isdir broken_dir = false \/
   listdir broken_dir = Ok ["broken.json"; "README.md"; "number.json"]) /\
  load_checklists broken_dir = Ok [].
Proof.
  split; [now right|].
  exact (load_checklists_nothing_loads broken_dir _ (or_intror eq_refl) broken_dir_fails).
Defined.

(** X15. A listed file that fails to load is passed over: the checklist is
    the one the directory would give without that file, so the files
    before and after it are loaded all the same. *)
Theorem load_checklists_without_failing (path : checklist_dir)
        (before after : list string) (fname : string) :
  isdir path = true ->
  listdir path = Ok (before ++ fname :: after) ->
  fails_to_load path fname ->
  load_checklists path =
  Ok (flat_map (file_items path) before ++ flat_map (file_items path) after).
Proof.
  intros Hd Hl Hf. rewrite (load_checklists_skips_failing _ _ _ _ Hd Hl Hf).
  now rewrite load_files_flat_map, flat_map_app.
Qed.

Lemma load_checklists_without_failing_witness :
  isdir sample_dir = true /\
  listdir sample_dir = Ok (["base.json"] ++ "broken.json" :: ["README.md"; "more.json"]) /\
  fails_to_load sample_dir "broken.json" /\
  load_checklists sample_dir = Ok [VDict sample_item; VDict item_without_keywords].
Proof.
  split; [reflexivity|]. split; [reflexivity|].
  split; [now exists ValueError|].
  exact (load_checklists_without_failing sample_dir ["base.json"]
           ["README.md"; "more.json"] "broken.json" eq_refl eq_refl
           (ex_intro _ ValueError eq_refl)).
Defined.

(** ** The commands *)

Lemma audit_loop_single (lower : string -> string) (top : tree) (item : dict)
      (acc : list dict) :
  audit_loop lower top [item] acc =
  (r <- audit_item lower top item ;; Ok (acc ++ [r])).
Proof.
  rewrite audit_loop_mapM. cbn [mapM bind].
  now destruct (audit_item lower top item).
Qed.

Lemma audit_repo_any_mapM (lower : string -> string) (top : tree)
      (checks : list value) (acc : list dict) :
  audit_repo_any lower top checks acc =
  (rs <- mapM (audit_value lower top) checks ;; Ok (acc ++ rs)).
Proof.
  revert acc. induction checks as [|v checks IH]; intros acc; cbn [audit_repo_any mapM bind].
  - now rewrite app_nil_r.
  - destruct v; cbn [audit_value bind]; try reflexivity.
    rewrite audit_loop_single.
    destruct (audit_item lower top kvs) as [r|e]; cbn [bind]; [|reflexivity].
    rewrite IH. destruct (mapM (audit_value lower top) checks); cbn [bind]; [|reflexivity].
    now rewrite <- app_assoc.
Qed.

Lemma audit_value_raises (lower : string -> string) (top : tree) (v : value) :
  (exists e, audit_value lower top v = Raise e) <-> bad_item v.
Proof.
  destruct v as [| | | | |item]; cbn [audit_value bad_item];
    try (split; [tauto | eauto]).
  unfold audit_item.
  destruct (keyword_strings (dict_get item "keywords" (VList []))) as [ks|] eqn:Ek.
  - rewrite (scan_keyword_strings lower top _ _ Ek). cbn [bind].
    split; [intros [e H]; discriminate | discriminate].
  - rewrite (scan_not_strings lower top _ Ek). cbn [bind].
    split; [reflexivity | eauto].
Qed.

Lemma map_mapM_id (lower : string -> string) (top : tree) (items : list dict) :
  mapM (audit_value lower top) (map VDict items) =
  mapM (audit_item lower top) items.
Proof.
  induction items as [|item items IH]; [reflexivity|].
  cbn [map mapM audit_value]. now rewrite IH.
Qed.

(** X16. What the commands do with a loaded checklist: on a list of dicts
    it is [audit_repo]; it raises exactly when the list holds something
    that is not a dict (the keys a checklist file contributes when it holds
    an object instead of a list, say) or a dict whose keywords are not an
    iterable of strings. *)
Theorem audit_repo_any_raises_iff (lower : string -> string) (top : tree)
        (checks : list value) :
  (forall items, checks = map VDict items ->
     audit_repo_any lower top checks [] = audit_repo lower top items) /\
  ((exists e, audit_repo_any lower top checks [] = Raise e) <->
   (exists v, In v checks /\ bad_item v)).
Proof.
  split.
  - intros items ->. rewrite audit_repo_any_mapM, audit_repo_mapM, map_mapM_id.
    now destruct (mapM (audit_item lower top) items).
  - rewrite audit_repo_any_mapM.
    assert (Hm : (exists e, (rs <- mapM (audit_value lower top) checks;; Ok ([] ++ rs))
                            = Raise e) <->
                 (exists e, mapM (audit_value lower top) checks = Raise e)).
    { destruct (mapM (audit_value lower top) checks) as [rs|e]; cbn [bind].
      - split; intros [e H]; discriminate.
      - split; eauto. }
    rewrite Hm, mapM_Raise_iff. split.
    + intros (v & e & Hin & H). exists v. split; [exact Hin|].
      apply (audit_value_raises lower top). eauto.
    + intros (v & Hin & H). apply (audit_value_raises lower top) in H.
      destruct H as [e H]. eauto.
Qed.

Lemma audit_repo_any_required (lower : string -> string) (top : tree)
      (checks : list value) (results : list dict) :
  audit_repo_any lower top checks [] = Ok results ->
  forallb has_required results = true.
Proof.
  rewrite audit_repo_any_mapM.
  destruct (mapM (audit_value lower top) checks) as [rs|e] eqn:Em; cbn [bind app];
    [|discriminate].
  intros H. injection H as <-. apply mapM_Ok_Forall2 in Em.
  induction Em as [|v r checks rs Hv _ IH]; [reflexivity|].
  cbn [forallb]. rewrite IH, andb_true_r.
  destruct v; try discriminate. cbn [audit_value] in Hv.
  now apply audit_item_present in Hv.
Qed.

Lemma load_and_audit_required (E : env) (a : args) (results : list dict) :
  load_and_audit E a = Ok results -> forallb has_required results = true.
Proof.
  unfold load_and_audit.
  destruct (load_checklists (package_checklists E)) as [checks|e]; cbn [bind];
    [|discriminate].
  apply audit_repo_any_required.
Qed.

Lemma render_of_audit (E : env) (a : args) (results : list dict) (title : string)
      (l : log) :
  load_and_audit E a = Ok results ->
  render E results title l =
  (Ok (String.concat NL (report_lines (env_repr E) title results), results), l).
Proof.
  intros H. unfold render.
  now rewrite (report_required _ _ title (load_and_audit_required _ _ _ H)).
Qed.

Lemma commands_raise_early (E : env) (a : args) (e : exn) (l : log) :
  load_and_audit E a = Raise e ->
  cmd_audit E a l = (Raise e, l) /\
  cmd_report E a l = (Raise e, l) /\
  cmd_certify E a l = (Raise e, l).
Proof.
  intros H. unfold cmd_audit, cmd_report, cmd_certify, io_bind, io_lift.
  rewrite H. auto.
Qed.

(** X17. When the checklists directory cannot be listed, or a loaded
    checklist holds something the auditor cannot take (not a dict, or
    keywords that are not an iterable of strings), [audit], [report] and
    [certify] all raise, one and the same exception, before they attempt
    anything: no file is opened, nothing is printed. *)
Theorem commands_fail_before_output (E : env) (a : args) (l : log) :
  ((isdir (package_checklists E) = true /\
    exists e, listdir (package_checklists E) = Raise e) \/
   (exists checks v, load_checklists (package_checklists E) = Ok checks /\
      In v checks /\ bad_item v)) ->
  exists e,
    cmd_audit E a l = (Raise e, l) /\
    cmd_report E a l = (Raise e, l) /\
    cmd_certify E a l = (Raise e, l).
Proof.
  intros H.
  assert (Hr : exists e, load_and_audit E a = Raise e).
  { unfold load_and_audit. destruct H as [[Hd [e He]] | (checks & v & Hl & Hin & Hb)].
    - exists e. unfold load_checklists. rewrite Hd, He. reflexivity.
    - rewrite Hl. cbn [bind].
      apply (proj2 (audit_repo_any_raises_iff _ _ _)). eauto. }
  destruct Hr as [e Hr]. exists e. now apply commands_raise_early.
Qed.

Lemma mixed_dir_bad_item :
  exists checks v, load_checklists mixed_dir = Ok checks /\ In v checks /\ bad_item v.
Proof.
  exists [VDict sample_item; VStr "id"; VStr "title"; VStr "keywords"; VStr "remediation"],
    (VStr "id").
  split; [reflexivity|]. split; [right; now left | exact I].
Defined.

Lemma commands_fail_before_output_witness :
  (exists checks v, load_checklists mixed_dir = Ok checks /\ In v checks /\ bad_item v) /\
  exists e,
    cmd_audit (sample_env mixed_dir always_ok) (no_args "audit") [] = (Raise e, []) /\
    cmd_report (sample_env mixed_dir always_ok) (no_args "report") [] = (Raise e, []) /\
    cmd_certify (sample_env mixed_dir always_ok) (no_args "certify") [] = (Raise e, []).
Proof.
  split; [exact mixed_dir_bad_item|].
  destruct (commands_fail_before_output (sample_env mixed_dir always_ok)
              (no_args "audit") [] (or_intror mixed_dir_bad_item)) as (e & Ha & Hr & Hc).
  exists e. split; [exact Ha|]. split; [exact Hr | exact Hc].
Defined.

Lemma or_default_blank (o : option string) (d : string) :
  or_default (blank_as_none o) d = or_default o d.
Proof.
  destruct o as [s|]; [|reflexivity]. cbn [blank_as_none or_default].
  destruct (String.eqb s "") eqn:Es; cbn [or_default]; [reflexivity | now rewrite Es].
Qed.

Lemma load_and_audit_blank (E : env) (a : args) :
  load_and_audit E (without_blanks a) = load_and_audit E a.
Proof.
  unfold load_and_audit. cbn [repo without_blanks]. now rewrite or_default_blank.
Qed.

(** X18. An empty [--repo] or [--out] is taken as none given: the current
    directory is audited, and the output goes to the default place ([audit]
    prints instead of writing). *)
Theorem commands_blank_options (E : env) (a : args) (l : log) :
  cmd_audit E (without_blanks a) l = cmd_audit E a l /\
  cmd_report E (without_blanks a) l = cmd_report E a l /\
  cmd_certify E (without_blanks a) l = cmd_certify E a l /\
  main E (without_blanks a) l = main E a l.
Proof.
  assert (Ha : cmd_audit E (without_blanks a) l = cmd_audit E a l).
  { unfold cmd_audit, io_bind, io_lift. rewrite load_and_audit_blank.
    destruct (load_and_audit E a) as [results|e]; [|reflexivity].
    cbn [out without_blanks]. destruct (out a) as [o|]; [|reflexivity].
    cbn [blank_as_none]. destruct (String.eqb o "") eqn:Eo; [reflexivity|].
    now rewrite Eo. }
  assert (Hr : cmd_report E (without_blanks a) l = cmd_report E a l).
  { unfold cmd_report, io_bind, io_lift. rewrite load_and_audit_blank.
    cbn [out without_blanks]. now rewrite or_default_blank. }
  assert (Hc : cmd_certify E (without_blanks a) l = cmd_certify E a l).
  { unfold cmd_certify, io_bind, io_lift. rewrite load_and_audit_blank.
    cbn [out without_blanks]. now rewrite or_default_blank. }
  repeat split; try assumption.
  unfold main. cbn [cmd without_blanks]. destruct (cmd a) as [c|]; [|reflexivity].
  destruct (String.eqb c "audit"); [exact Ha|].
  destruct (String.eqb c "report"); [exact Hr|].
  destruct (String.eqb c "certify"); [exact Hc|].
  reflexivity.
Qed.

Lemma perform_attempts (E : env) (ev : event) (l : log) :
  exists o, snd (perform E ev l) = l ++ [(ev, o)].
Proof.
  unfold perform. destruct (outcome E l ev) as [e|];
    [exists (Some e) | exists None]; reflexivity.
Qed.

(** X19. [audit] without an output path and [checklist] only print:
    whatever happens they attempt at most one operation, a print, and open
    no file. *)
Theorem commands_print_only (E : env) (a : args) (l : log) :
  blank_as_none (out a) = None ->
  (exists suffix, attempts (cmd_audit E a) l suffix /\
     forallb (fun x => is_print (fst x)) suffix = true /\
     List.length suffix <= 1) /\
  (exists suffix, attempts (cmd_checklist E a) l suffix /\
     forallb (fun x => is_print (fst x)) suffix = true /\
     List.length suffix <= 1).
Proof.
  intros Hout. unfold attempts. split.
  - unfold cmd_audit, io_bind, io_lift.
    destruct (load_and_audit E a) as [results|e].
    + assert (Hp : exists o, snd (match out a with
                     | Some o =>
                         if String.eqb o "" then perform E (EPrint (dump_results E results))
                         else fun l0 =>
                           match write_file E o (dump_results E results) l0 with
                           | (Ok _, l') => perform E (EPrint ("Wrote audit JSON to " ++ o)%string) l'
                           | (Raise e, l') => (Raise e, l')
                           end
                     | None => perform E (EPrint (dump_results E results))
                     end l) = l ++ [(EPrint (dump_results E results), o)]).
      { destruct (out a) as [o|]; [|apply perform_attempts].
        cbn [blank_as_none] in Hout. destruct (String.eqb o ""); [|discriminate].
        apply perform_attempts. }
      destruct Hp as [o Hp]. exists [(EPrint (dump_results E results), o)].
      split; [exact Hp | split; [reflexivity | cbn; lia]].
    + exists []. cbn [snd]. rewrite app_nil_r. repeat split. cbn; lia.
  - unfold cmd_checklist, io_bind, io_lift.
    destruct (load_checklists (package_checklists E)) as [checks|e].
    + destruct (perform_attempts E (EPrint (json_dumps E (VList checks))) l) as [o Hp].
      exists [(EPrint (json_dumps E (VList checks)), o)].
      split; [exact Hp | split; [reflexivity | cbn; lia]].
    + exists []. cbn [snd]. rewrite app_nil_r. repeat split. cbn; lia.
Qed.

Lemma commands_print_only_witness :
  blank_as_none (out (no_args "audit")) = None /\
  exists suffix,
    attempts (cmd_audit (sample_env sample_dir always_ok) (no_args "audit")) [] suffix /\
    forallb (fun x => is_print (fst x)) suffix = true /\
    List.length suffix <= 1.
Proof.
  split; [reflexivity|].
  exact (proj1 (commands_print_only (sample_env sample_dir always_ok)
                  (no_args "audit") [] eq_refl)).
Defined.

(** One operation, by cases on how the system answers it. *)
Ltac next_outcome :=
  match goal with
  | |- context [outcome ?E ?l ?ev] =>
      destruct (outcome E l ev) as [?|]; cbn [fst snd]
  end.


(** X21. When the archive cannot be opened, [certify] raises what opening
    raised after it has written and closed both temporary files, and it
    leaves them behind: nothing is removed. *)
Theorem cmd_certify_leaves_temporaries (E : env) (a : args)
        (results : list dict) (e : exn) (l : log) :
  load_and_audit E a = Ok results ->
  (forall l' ev, outcome E l' ev =
                 match ev with EZipOpen _ => Some e | _ => None end) ->
  exists md : string,
    cmd_certify E a l =
    (Raise e,
     l ++ [(EOpen tmp_md, None); (EWrite tmp_md md, None); (EClose tmp_md, None);
           (EOpen tmp_json, None);
           (EWrite tmp_json (dump_results E results), None);
           (EClose tmp_json, None);
           (EZipOpen (packet_path a), Some e)]).
Proof.
  intros Hla Ho. eexists.
  unfold cmd_certify, io_bind, io_lift. rewrite Hla.
  rewrite (render_of_audit E a results _ l Hla). cbn [fst snd].
  fold (packet_path a). fold tmp_md. fold tmp_json.
  unfold write_file, io_bind, io_finally, perform.
  rewrite !Ho. cbn [fst snd]. repeat rewrite <- app_assoc. reflexivity.
Qed.

Lemma cmd_certify_leaves_temporaries_witness :
  load_and_audit (sample_env sample_dir no_archive) (no_args "certify")
    = Ok [result_pass; result_no_policy] /\
  exists md : string,
    cmd_certify (sample_env sample_dir no_archive) (no_args "certify") [] =
    (Raise OSError,
     [(EOpen tmp_md, None); (EWrite tmp_md md, None); (EClose tmp_md, None);
      (EOpen tmp_json, None); (EWrite tmp_json "[...]", None);
      (EClose tmp_json, None);
      (EZipOpen "certification-packet.zip", Some OSError)]).
Proof.
  split; [reflexivity|].
  exact (cmd_certify_leaves_temporaries (sample_env sample_dir no_archive)
           (no_args "certify") [result_pass; result_no_policy] OSError []
           eq_refl (fun _ _ => eq_refl)).
Defined.

(** X22. When the audit returns and every operation succeeds, [certify]
    does this and nothing else, in this order: it writes the report of the
    results to the first temporary file and the dump of the same results to
    the second, puts the two files into the archive, removes them, and
    prints where the archive is.  The renderer raises nothing on the way. *)
Theorem cmd_certify_success (E : env) (a : args) (results : list dict) (l : log) :
  load_and_audit E a = Ok results ->
  (forall l' ev, outcome E l' ev = None) ->
  cmd_certify E a l =
  (Ok tt,
   l ++ [(EOpen tmp_md, None);
         (EWrite tmp_md
            (String.concat NL
               (report_lines (env_repr E)
                  ("Certification Packet (" ++ utcnow_isoformat E ++ "Z)")%string
                  results)), None);
         (EClose tmp_md, None);
         (EOpen tmp_json, None);
         (EWrite tmp_json (dump_results E results), None);
         (EClose tmp_json, None);
         (EZipOpen (packet_path a), None);
         (EZipWrite (packet_path a) tmp_md, None);
         (EZipWrite (packet_path a) tmp_json, None);
         (EZipClose (packet_path a), None);
         (ERemove tmp_md, None);
         (ERemove tmp_json, None);
         (EPrint ("Wrote certification packet to " ++ packet_path a)%string, None)]).
Proof.
  intros Hla Ho.
  unfold cmd_certify, io_bind, io_lift. rewrite Hla.
  rewrite (render_of_audit E a results _ l Hla). cbn [fst snd].
  fold (packet_path a). fold tmp_md. fold tmp_json.
  unfold write_file, io_bind, io_finally, perform.
  rewrite !Ho. cbn [fst snd]. repeat rewrite <- app_assoc. reflexivity.
Qed.

Lemma cmd_certify_success_witness :
  load_and_audit (sample_env sample_dir always_ok) (no_args "certify")
    = Ok [result_pass; result_no_policy] /\
  fst (cmd_certify (sample_env sample_dir always_ok) (no_args "certify") []) = Ok tt.
Proof.
  split; [reflexivity|].
  rewrite (cmd_certify_success (sample_env sample_dir always_ok) (no_args "certify")
             [result_pass; result_no_policy] [] eq_refl (fun _ _ => eq_refl)).
  reflexivity.
Defined.

(** X23. When the audit returns, [report] gets as far as opening its
    output file, whose path is never empty, and attempts nothing on any
    other path; when every operation succeeds it writes the report of the
    results there and prints the path. *)
Theorem cmd_report_output (E : env) (a : args) (results : list dict) (l : log) :
  load_and_audit E a = Ok results ->
  let path := or_default (out a) "compliance-report.md" in
  let md := String.concat NL
              (report_lines (env_repr E)
                 ("Compliance Report (" ++ utcnow_isoformat E ++ "Z)")%string results) in
  path <> "" /\
  (exists o rest,
     attempts (cmd_report E a) l ((EOpen path, o) :: rest) /\
     forall ev o', In (ev, o') rest ->
       ev = EWrite path md \/ ev = EClose path \/
       ev = EPrint ("Wrote report to " ++ path)%string) /\
  ((forall l' ev, outcome E l' ev = None) ->
   cmd_report E a l =
   (Ok tt, l ++ [(EOpen path, None); (EWrite path md, None); (EClose path, None);
                 (EPrint ("Wrote report to " ++ path)%string, None)])).
Proof.
  intros Hla path md. split; [|split].
  - unfold path, or_default. destruct (out a) as [s|]; [|discriminate].
    destruct (String.eqb s "") eqn:Es; [discriminate|].
    intros ->. discriminate.
  - unfold attempts, cmd_report, io_bind, io_lift. rewrite Hla.
    rewrite (render_of_audit E a results _ l Hla). cbn [fst snd].
    fold path. fold md.
    unfold write_file, io_bind, io_finally, perform.
    repeat next_outcome;
      repeat rewrite <- app_assoc; cbn [app];
      (do 2 eexists; split; [reflexivity|]);
      intros ev o' Hin; cbn [In] in Hin;
      repeat match goal with
             | H : _ \/ _ |- _ => destruct H
             | H : (_, _) = (_, _) |- _ => injection H as <- <-
             | H : False |- _ => destruct H
             end; tauto.
  - intros Ho. unfold cmd_report, io_bind, io_lift. rewrite Hla.
    rewrite (render_of_audit E a results _ l Hla). cbn [fst snd].
    fold path. fold md.
    unfold write_file, io_bind, io_finally, perform.
    rewrite !Ho. cbn [fst snd]. repeat rewrite <- app_assoc. reflexivity.
Qed.

Lemma cmd_report_output_witness :
  load_and_audit (sample_env sample_dir always_ok)
    {| cmd := Some "report"; repo := None; out := Some "" |}
    = Ok [result_pass; result_no_policy] /\
  exists o rest,
    attempts (cmd_report (sample_env sample_dir always_ok)
                {| cmd := Some "report"; repo := None; out := Some "" |}) []
      ((EOpen "compliance-report.md", o) :: rest).
Proof.
  split; [reflexivity|].
  destruct (cmd_report_output (sample_env sample_dir always_ok)
              {| cmd := Some "report"; repo := None; out := Some "" |}
              [result_pass; result_no_policy] [] eq_refl)
    as (_ & (o & rest & H & _) & _).
  exists o, rest. exact H.
Defined.
